(** * Compliance rule evaluation: [src/security/compliance_scanner.py]

    A shallow embedding of [SecurityComplianceScanner]: the rule catalog,
    the scan loop with its per-rule fault isolation, the summary computed
    at the end of [scan_all], and the rows built by the two exporters. *)

From Stdlib Require Import Lia Permutation.
From stdpp Require Import base strings list gmap pretty.

(** ** Data model *)

(** [@dataclass class ComplianceRule]. Every field is a [str]. *)
Module ComplianceRule.
Record t : Type := mk {
  id : string;
  title : string;
  description : string;
  severity : string;
  category : string;
  service : string;
  check_function : string
}.
End ComplianceRule.

(** [@dataclass class ComplianceResult]. Every field is a [str]. *)
Module ComplianceResult.
Record t : Type := mk {
  rule_id : string;
  status : string;
  resource_id : string;
  details : string;
  remediation : string
}.
End ComplianceResult.

(** The attributes of a scanner that [scan_all] and the exporters read or
    assign. The six boto3 clients are handles on the cloud account; the
    account is the world [W] that the checks run against (below). *)
Record SecurityComplianceScanner : Type := {
  region : string;
  rules : list ComplianceRule.t;
  results : list ComplianceResult.t
}.

(** [self.results = all_results] *)
Definition set_results (self : SecurityComplianceScanner)
    (all_results : list ComplianceResult.t) : SecurityComplianceScanner :=
  {| region := region self; rules := rules self; results := all_results |}.

(** ** The summary dictionary of [scan_all] *)

(** One entry of ["by_severity"]: [{"total": _, "failed": _}]. *)
Record SeverityCount : Type := {
  total : nat;
  sev_failed : nat
}.

(** The dictionary under ["by_severity"]; its four keys are fixed. *)
Record BySeverity : Type := {
  CRITICAL : SeverityCount;
  HIGH : SeverityCount;
  MEDIUM : SeverityCount;
  LOW : SeverityCount
}.

Record Summary : Type := {
  total_checks : nat;
  passed : nat;
  failed : nat;
  warnings : nat;
  errors : nat;
  by_severity : BySeverity
}.

(** [sum(1 for r in xs if cond(r))]: Python's [sum] starts from 0 and adds
    the generated ones from left to right. *)
Definition sum_1_for {A : Type} (cond : A → bool) (xs : list A) : nat :=
  fold_left (λ acc r, if cond r then acc + 1 else acc) xs 0.

(** The loop of [_get_rule_severity] over [self.rules]: the severity of the
    first rule with that id, ["UNKNOWN"] when the loop falls through. *)
Fixpoint get_rule_severity_in (catalog : list ComplianceRule.t)
    (rule_id : string) : string :=
  match catalog with
  | [] => "UNKNOWN"
  | rule :: rest =>
      if String.eqb (ComplianceRule.id rule) rule_id
      then ComplianceRule.severity rule
      else get_rule_severity_in rest rule_id
  end.

Definition _get_rule_severity (self : SecurityComplianceScanner)
    (rule_id : string) : string :=
  get_rule_severity_in (rules self) rule_id.

(** [r.status == s] *)
Definition status_is (s : string) (r : ComplianceResult.t) : bool :=
  String.eqb (ComplianceResult.status r) s.

(** [self._get_rule_severity(r.rule_id) == sev] *)
Definition severity_is (self : SecurityComplianceScanner) (sev : string)
    (r : ComplianceResult.t) : bool :=
  String.eqb (_get_rule_severity self (ComplianceResult.rule_id r)) sev.

(** One ["by_severity"] entry, as written four times in [scan_all]. *)
Definition severity_count (self : SecurityComplianceScanner) (sev : string)
    (all_results : list ComplianceResult.t) : SeverityCount :=
  {| total := sum_1_for (severity_is self sev) all_results;
     sev_failed :=
       sum_1_for (λ r, severity_is self sev r && status_is "FAIL" r)
                 all_results |}.

(** The [summary = {...}] expression of [scan_all], over the local
    [all_results] and the scanner's catalog. *)
Definition summarize (self : SecurityComplianceScanner)
    (all_results : list ComplianceResult.t) : Summary :=
  {| total_checks := length all_results;
     passed := sum_1_for (status_is "PASS") all_results;
     failed := sum_1_for (status_is "FAIL") all_results;
     warnings := sum_1_for (status_is "WARNING") all_results;
     errors := sum_1_for (status_is "ERROR") all_results;
     by_severity :=
       {| CRITICAL := severity_count self "CRITICAL" all_results;
          HIGH := severity_count self "HIGH" all_results;
          MEDIUM := severity_count self "MEDIUM" all_results;
          LOW := severity_count self "LOW" all_results |} |}.

(** ** Effects outside the scanner object *)

(** A record of the module's [logger]: level and formatted message. *)
Inductive LogLevel : Type := LogInfo | LogWarning | LogError.

(** What a method can touch besides [self]: the cloud account behind the
    clients ([world]), the log, and the files written by the exporters. *)
Record Env (W : Type) : Type := {
  world : W;
  log : list (LogLevel * string);
  fs : gmap string string
}.
Arguments world {W} _.
Arguments log {W} _.
Arguments fs {W} _.

(** [logger.info(msg)], [logger.warning(msg)], [logger.error(msg)] *)
Definition logger {W : Type} (lvl : LogLevel) (msg : string) (env : Env W)
    : Env W :=
  {| world := world env; log := log env ++ [(lvl, msg)]; fs := fs env |}.

Definition set_world {W : Type} (w : W) (env : Env W) : Env W :=
  {| world := w; log := log env; fs := fs env |}.

(** Writing [content] to the file [filename], replacing what was there. *)
Definition write_file {W : Type} (filename content : string) (env : Env W)
    : Env W :=
  {| world := world env; log := log env;
     fs := <[filename := content]> (fs env) |}.

(** ** Checks *)

(** How a call [check_func()] ends: it returns its list of results, or it
    raises an exception [e] that [except Exception] catches, with
    [str(e) = message]. [partial] is the list the check had built in its
    local [results] variable when it raised; the raise unwinds the frame
    and the caller never receives it. *)
Inductive Outcome : Type :=
  | Returns (check_results : list ComplianceResult.t)
  | Raises (partial : list ComplianceResult.t) (message : string).

(** A bound check method: a zero-argument callable that queries the account
    through the scanner's clients and returns a list of results. The checks
    of the class read [self.iam_client] and [self.ec2_client] and assign no
    attribute of the scanner. *)
Definition Check (W : Type) : Type := W → Outcome * W.

(** The two [ComplianceResult(...)] literals built by [scan_all]. *)
Definition not_implemented_result (rule : ComplianceRule.t)
    : ComplianceResult.t :=
  ComplianceResult.mk (ComplianceRule.id rule) "ERROR" "N/A"
    ("Check function '" +:+ ComplianceRule.check_function rule
       +:+ "' not implemented")
    EmptyString.

Definition check_error_result (rule : ComplianceRule.t) (e : string)
    : ComplianceResult.t :=
  ComplianceResult.mk (ComplianceRule.id rule) "ERROR" "N/A"
    ("Error running check: " +:+ e)
    EmptyString.

(** [vars(r)]: the instance dictionary of a result, in field order. *)
Definition vars (r : ComplianceResult.t) : list (string * string) :=
  [ ("rule_id", ComplianceResult.rule_id r);
    ("status", ComplianceResult.status r);
    ("resource_id", ComplianceResult.resource_id r);
    ("details", ComplianceResult.details r);
    ("remediation", ComplianceResult.remediation r) ].

(** The dictionary returned by [scan_all]. *)
Module Report.
Record t : Type := mk {
  summary : Summary;
  results : list (list (string * string))
}.
End Report.

(** One row of the [data] list built by both exporters. The dictionary keys
    are ["Rule ID"], ["Title"], ["Severity"], ["Category"], ["Service"],
    ["Status"], ["Resource ID"], ["Details"], ["Remediation"]. *)
Record ReportRow : Type := {
  Rule_ID : string;
  Title : string;
  Severity : string;
  Category : string;
  Service : string;
  Status : string;
  Resource_ID : string;
  Details : string;
  Remediation : string
}.

(** [next((r for r in self.rules if r.id == rule_id), None)] *)
Definition next_rule (self : SecurityComplianceScanner) (rule_id : string)
    : option ComplianceRule.t :=
  find (λ r, String.eqb (ComplianceRule.id r) rule_id) (rules self).

(** The body of the [for result in self.results] loop of an exporter: the
    dictionary appended to [data]. A dataclass instance is always truthy, so
    [if rule:] tests for [None]. *)
Definition report_row (self : SecurityComplianceScanner)
    (result : ComplianceResult.t) : ReportRow :=
  match next_rule self (ComplianceResult.rule_id result) with
  | Some rule =>
      {| Rule_ID := ComplianceResult.rule_id result;
         Title := ComplianceRule.title rule;
         Severity := ComplianceRule.severity rule;
         Category := ComplianceRule.category rule;
         Service := ComplianceRule.service rule;
         Status := ComplianceResult.status result;
         Resource_ID := ComplianceResult.resource_id result;
         Details := ComplianceResult.details result;
         Remediation := ComplianceResult.remediation result |}
  | None =>
      {| Rule_ID := ComplianceResult.rule_id result;
         Title := "Unknown";
         Severity := "Unknown";
         Category := "Unknown";
         Service := "Unknown";
         Status := ComplianceResult.status result;
         Resource_ID := ComplianceResult.resource_id result;
         Details := ComplianceResult.details result;
         Remediation := ComplianceResult.remediation result |}
  end.

(** [data = []] followed by the loop that appends one row per stored
    result. *)
Definition report_data (self : SecurityComplianceScanner) : list ReportRow :=
  fold_left (λ data result, data ++ [report_row self result])
            (results self) [].

Section Scanner.

(** The cloud account the checks talk to. *)
Context {W : Type}.

(** [getattr(self, name, None)] on a scanner: the bound check of that name,
    [None] when the scanner has none. *)
Variable checks : string → option (Check W).

(** [pd.DataFrame(data).to_csv(filename, index=False)] renders the rows;
    the rendering belongs to pandas. *)
Variable to_csv : list ReportRow → string.

(** The rest of [export_results_html] once [data] is built: the page is
    rendered from the stored results and the rows and put under the file
    name. It is taken as it comes, as a transformer of the scanner and the
    environment. *)
Variable html_report :
  SecurityComplianceScanner → list ReportRow → string → Env W →
  SecurityComplianceScanner * Env W.

(** *** [scan_all] *)

(** One iteration of [for rule in self.rules], acting on the local
    [all_results] and on the environment. *)
Definition scan_rule (acc : list ComplianceResult.t * Env W)
    (rule : ComplianceRule.t) : list ComplianceResult.t * Env W :=
  let '(all_results, env) := acc in
  let env :=
    logger LogInfo
      ("Running check: " +:+ ComplianceRule.id rule +:+ " - "
         +:+ ComplianceRule.title rule) env in
  match checks (ComplianceRule.check_function rule) with
  | Some check_func =>
      match check_func (world env) with
      | (Returns check_results, w) =>
          (all_results ++ check_results, set_world w env)
      | (Raises _ e, w) =>
          let env :=
            logger LogError
              ("Error running check " +:+ ComplianceRule.id rule +:+ ": "
                 +:+ e) (set_world w env) in
          (all_results ++ [check_error_result rule e], env)
      end
  | None =>
      let env :=
        logger LogWarning
          ("Check function '" +:+ ComplianceRule.check_function rule
             +:+ "' not found") env in
      (all_results ++ [not_implemented_result rule], env)
  end.

(** The whole loop, from [all_results = []]. *)
Definition scan_loop (catalog : list ComplianceRule.t) (env : Env W)
    : list ComplianceResult.t * Env W :=
  fold_left scan_rule catalog ([], env).

(** [scan_all(self)]: the scanner and the environment after the call, and
    the returned dictionary. *)
Definition scan_all (self : SecurityComplianceScanner) (env : Env W)
    : SecurityComplianceScanner * Env W * Report.t :=
  let '(all_results, env) := scan_loop (rules self) env in
  let self := set_results self all_results in
  let summary := summarize self all_results in
  (self, env, Report.mk summary (map vars all_results)).

(** *** The exporters *)

Definition export_results_csv (self : SecurityComplianceScanner)
    (filename : string) (env : Env W) : SecurityComplianceScanner * Env W :=
  match results self with
  | [] => (self, logger LogWarning "No results to export" env)
  | _ :: _ =>
      let data := report_data self in
      let env := write_file filename (to_csv data) env in
      (self, logger LogInfo ("Results exported to " +:+ filename) env)
  end.

Definition export_results_html (self : SecurityComplianceScanner)
    (filename : string) (env : Env W) : SecurityComplianceScanner * Env W :=
  match results self with
  | [] => (self, logger LogWarning "No results to export" env)
  | _ :: _ =>
      let data := report_data self in
      html_report self data filename env
  end.

(** *** The dispatcher as the design describes it *)

(** [run_rule(rule)]: the results one rule contributes, and the world after
    its check ran. An unresolved check gives the single not-implemented
    result, a raising check the single error result, a returning check its
    results as produced. *)
Definition run_rule (rule : ComplianceRule.t) (w : W)
    : list ComplianceResult.t * W :=
  match checks (ComplianceRule.check_function rule) with
  | None => ([not_implemented_result rule], w)
  | Some check_func =>
      match check_func w with
      | (Returns check_results, w') => (check_results, w')
      | (Raises _ e, w') => ([check_error_result rule e], w')
      end
  end.

(** [run_all(catalog)]: the rules in catalog order, each rule's results
    appended after those of the rules before it. *)
Fixpoint run_all (catalog : list ComplianceRule.t) (w : W)
    : list ComplianceResult.t :=
  match catalog with
  | [] => []
  | rule :: rest =>
      let '(out, w') := run_rule rule w in out ++ run_all rest w'
  end.

(** The world after the checks of [catalog] ran in order. *)
Fixpoint world_after (catalog : list ComplianceRule.t) (w : W) : W :=
  match catalog with
  | [] => w
  | rule :: rest => world_after rest (snd (run_rule rule w))
  end.

End Scanner.

(** ** Vocabulary of the properties *)

(** The four severities that have an entry under ["by_severity"]. *)
Definition known_severity (sev : string) : bool :=
  String.eqb sev "CRITICAL" || String.eqb sev "HIGH"
  || String.eqb sev "MEDIUM" || String.eqb sev "LOW".

(** The five statuses of the data model. *)
Definition known_status (s : string) : bool :=
  String.eqb s "PASS" || String.eqb s "FAIL" || String.eqb s "WARNING"
  || String.eqb s "NOT_APPLICABLE" || String.eqb s "ERROR".

(** The sum of the four per-severity totals. *)
Definition severity_totals (b : BySeverity) : nat :=
  total (CRITICAL b) + total (HIGH b) + total (MEDIUM b) + total (LOW b).

(** The result's rule is found in the catalog and carries one of the four
    severities. *)
Definition resolves_to_known_severity (self : SecurityComplianceScanner)
    (r : ComplianceResult.t) : Prop :=
  ∃ rule, next_rule self (ComplianceResult.rule_id r) = Some rule
          ∧ known_severity (ComplianceRule.severity rule) = true.

(** The row of a result whose rule is not found. *)
Definition unknown_row (result : ComplianceResult.t) : ReportRow :=
  {| Rule_ID := ComplianceResult.rule_id result;
     Title := "Unknown"; Severity := "Unknown";
     Category := "Unknown"; Service := "Unknown";
     Status := ComplianceResult.status result;
     Resource_ID := ComplianceResult.resource_id result;
     Details := ComplianceResult.details result;
     Remediation := ComplianceResult.remediation result |}.

(** The row of a result joined with the metadata of [rule]. *)
Definition joined_row (rule : ComplianceRule.t)
    (result : ComplianceResult.t) : ReportRow :=
  {| Rule_ID := ComplianceResult.rule_id result;
     Title := ComplianceRule.title rule;
     Severity := ComplianceRule.severity rule;
     Category := ComplianceRule.category rule;
     Service := ComplianceRule.service rule;
     Status := ComplianceResult.status result;
     Resource_ID := ComplianceResult.resource_id result;
     Details := ComplianceResult.details result;
     Remediation := ComplianceResult.remediation result |}.

(** ** The default catalog and sample inputs *)

(** The list literal that [_load_default_rules] assigns to [self.rules]. *)
Definition default_rules : list ComplianceRule.t :=
  [ ComplianceRule.mk "SEC-IAM-001" "IAM Root Account MFA"
      "Checks if the root account has MFA enabled"
      "CRITICAL" "SECURITY" "IAM" "check_root_mfa";
    ComplianceRule.mk "SEC-IAM-002" "IAM Access Keys Rotation"
      "Checks if IAM access keys are rotated within 90 days"
      "HIGH" "SECURITY" "IAM" "check_access_key_rotation";
    ComplianceRule.mk "SEC-VPC-001"
      "Default Security Group Restricts All Traffic"
      "Checks if default security groups restrict all inbound and outbound traffic"
      "HIGH" "SECURITY" "VPC" "check_default_security_groups";
    ComplianceRule.mk "SEC-EKS-001" "EKS Control Plane Logging Enabled"
      "Checks if EKS control plane logging is enabled"
      "MEDIUM" "SECURITY" "EKS" "check_eks_logging";
    ComplianceRule.mk "SEC-EKS-002" "EKS Cluster Private Endpoint"
      "Checks if EKS cluster has private endpoint enabled"
      "HIGH" "SECURITY" "EKS" "check_eks_private_endpoint";
    ComplianceRule.mk "SEC-S3-001" "S3 Buckets Block Public Access"
      "Checks if S3 buckets block public access"
      "CRITICAL" "SECURITY" "S3" "check_s3_public_access";
    ComplianceRule.mk "SEC-S3-002" "S3 Buckets Encrypted"
      "Checks if S3 buckets are encrypted"
      "HIGH" "SECURITY" "S3" "check_s3_encryption";
    ComplianceRule.mk "SEC-AUDIT-001" "CloudTrail Enabled"
      "Checks if CloudTrail is enabled"
      "CRITICAL" "SECURITY" "CLOUDTRAIL" "check_cloudtrail_enabled";
    ComplianceRule.mk "FIN-EKS-001" "EKS Worker Node Encryption"
      "Checks if EKS worker nodes have encryption enabled"
      "HIGH" "SECURITY" "EKS" "check_eks_node_encryption";
    ComplianceRule.mk "FIN-NET-001" "VPC Flow Logs Enabled"
      "Checks if VPC flow logs are enabled for audit trails"
      "HIGH" "SECURITY" "VPC" "check_vpc_flow_logs";
    ComplianceRule.mk "FIN-TAG-001" "Required Tags Present"
      "Checks if required financial compliance tags are present"
      "MEDIUM" "OPERATIONS" "GENERAL" "check_required_tags" ].

(** [_load_default_rules(self)]: [self.rules = [...]]. *)
Definition _load_default_rules (self : SecurityComplianceScanner)
    : SecurityComplianceScanner :=
  {| region := region self; rules := default_rules;
     results := results self |}.

(** [__init__(self, region)], the clients apart: empty rules and results,
    then the default rules. *)
Definition __init__ (region : string) : SecurityComplianceScanner :=
  _load_default_rules {| region := region; rules := []; results := [] |}.

(** A scanner as the constructor leaves it, with the default region. *)
Definition fresh_scanner : SecurityComplianceScanner :=
  __init__ "us-gov-west-1".

(** Sample checks over a world that counts the calls made to the account.
    The root account has MFA; listing the access keys is denied after one
    key was judged; one default security group allows inbound traffic and
    its outbound side has nothing to report yet. *)
Definition sample_root_mfa : Check nat :=
  λ w, (Returns [ComplianceResult.mk "SEC-IAM-001" "PASS" "root"
                   "Root account has MFA enabled" EmptyString], S w).

Definition sample_access_key_rotation : Check nat :=
  λ w, (Raises [ComplianceResult.mk "SEC-IAM-002" "PASS" "alice/AKIA1"
                  "Access key is 3 days old (< 90 days)" EmptyString]
               "AccessDenied", S w).

Definition sample_default_security_groups : Check nat :=
  λ w, (Returns [ComplianceResult.mk "SEC-VPC-001" "FAIL" "sg-1"
                   "Default security group for VPC vpc-1 allows inbound traffic"
                   "Remove all inbound rules from the default security group";
                 ComplianceResult.mk "SEC-VPC-001" "WARNING" "sg-1"
                   "Default security group for VPC vpc-1 was not evaluated for outbound traffic"
                   EmptyString], S w).

Definition sample_checks (name : string) : option (Check nat) :=
  if String.eqb name "check_root_mfa" then Some sample_root_mfa
  else if String.eqb name "check_access_key_rotation"
       then Some sample_access_key_rotation
  else if String.eqb name "check_default_security_groups"
       then Some sample_default_security_groups
  else None.

Definition sample_env : Env nat := {| world := 0; log := []; fs := ∅ |}.

(** A result whose rule is in no catalog, and one that does not apply. *)
Definition stray_result : ComplianceResult.t :=
  ComplianceResult.mk "OLD-RULE-009" "FAIL" "bucket-7"
    "Bucket is public" "Block public access".

Definition not_applicable_result : ComplianceResult.t :=
  ComplianceResult.mk "SEC-EKS-001" "NOT_APPLICABLE" "account"
    "No EKS cluster in this region" EmptyString.

(** Rendering stand-ins for the exporters of the samples. *)
Definition sample_to_csv (data : list ReportRow) : string :=
  String.concat "|" (map Rule_ID data).

Definition sample_html_report (self : SecurityComplianceScanner)
    (data : list ReportRow) (filename : string) (env : Env nat)
    : SecurityComplianceScanner * Env nat :=
  (self, write_file filename (String.concat "," (map Status data)) env).

(** The default catalog cut at the first rule whose check the samples leave
    unresolved, and at the rule whose sample check raises. *)
Definition eks_logging_rule : ComplianceRule.t :=
  ComplianceRule.mk "SEC-EKS-001" "EKS Control Plane Logging Enabled"
    "Checks if EKS control plane logging is enabled"
    "MEDIUM" "SECURITY" "EKS" "check_eks_logging".

Definition access_key_rule : ComplianceRule.t :=
  ComplianceRule.mk "SEC-IAM-002" "IAM Access Keys Rotation"
    "Checks if IAM access keys are rotated within 90 days"
    "HIGH" "SECURITY" "IAM" "check_access_key_rotation".

(** A scanner whose catalog is the first three default rules: the first
    check returns one PASS, the second raises, the third returns a FAIL and
    a WARNING. *)
Definition three_rule_scanner : SecurityComplianceScanner :=
  {| region := "us-gov-west-1"; rules := take 3 default_rules;
     results := [] |}.

(** A scanner that holds two results, one of them from a retired rule. *)
Definition scanned_scanner : SecurityComplianceScanner :=
  {| region := "us-gov-west-1"; rules := default_rules;
     results := [stray_result; not_applicable_result] |}.

(** ** The checks of the class *)

(** The responses of the account, in the shape the checks read them. A call
    of a client either raises (left, with the text of the exception) or
    returns its response (right). The calls made by the checks only read the
    account. [CreateDate] and the clock are instants in microseconds, the
    resolution of [datetime]. *)
Record AccessKey : Type := {
  AccessKeyId : string;
  CreateDate : Z
}.

Record User : Type := { UserName : string }.

Record Vpc : Type := { VpcId : string }.

Record IpPermission : Type := { IpProtocol : string }.

Record SecurityGroup : Type := {
  GroupId : string;
  IpPermissions : list IpPermission;
  IpPermissionsEgress : list IpPermission
}.

(** [get_account_summary] gives the [SummaryMap] of the response;
    [list_access_keys] takes the [UserName]; [describe_security_groups]
    takes the VPC id of the [vpc-id] filter, the [group-name] filter being
    [default]. [clock n] is what the [n]-th reading of the clock gives. *)
Record Aws : Type := {
  get_account_summary : string + gmap string Z;
  list_users : string + list User;
  list_access_keys : string → string + list AccessKey;
  describe_vpcs : string + list Vpc;
  describe_security_groups : string → string + list SecurityGroup;
  clock : nat → Z;
  readings : nat
}.

(** [datetime.datetime.now(create_date.tzinfo)] *)
Definition datetime_now (w : Aws) : Z * Aws :=
  (clock w (readings w),
   {| get_account_summary := get_account_summary w;
      list_users := list_users w;
      list_access_keys := list_access_keys w;
      describe_vpcs := describe_vpcs w;
      describe_security_groups := describe_security_groups w;
      clock := clock w;
      readings := S (readings w) |}).

(** The result returned by the [except Exception as e] branch of a check. *)
Definition error_checking (rule_id resource_id e : string)
    : ComplianceResult.t :=
  ComplianceResult.mk rule_id "ERROR" resource_id
    ("Error checking: " +:+ e) EmptyString.

(** [check_root_mfa(self)] *)
Definition check_root_mfa (env : Env Aws) : Outcome * Env Aws :=
  match get_account_summary (world env) with
  | inr SummaryMap =>
      if Z.eqb (default 0%Z (SummaryMap !! "AccountMFAEnabled")) 1
      then (Returns [ComplianceResult.mk "SEC-IAM-001" "PASS" "root"
                       "Root account has MFA enabled" EmptyString], env)
      else (Returns [ComplianceResult.mk "SEC-IAM-001" "FAIL" "root"
                       "Root account does not have MFA enabled"
                       "Enable MFA for the root account through the AWS Management Console"],
            env)
  | inl e =>
      (Returns [error_checking "SEC-IAM-001" "root" e],
       logger LogError ("Error checking root MFA: " +:+ e) env)
  end.

(** [(now - create_date).days]: a [timedelta] keeps its seconds and
    microseconds non-negative, so its days are the floor of the quotient. *)
Definition age_in_days (now create_date : Z) : Z :=
  ((now - create_date) `div` 86400000000)%Z.

(** The result appended for one access key. *)
Definition access_key_result (username : string) (key : AccessKey)
    (now : Z) : ComplianceResult.t :=
  let age_days := age_in_days now (CreateDate key) in
  if (90 <? age_days)%Z
  then ComplianceResult.mk "SEC-IAM-002" "FAIL"
         (username +:+ "/" +:+ AccessKeyId key)
         ("Access key is " +:+ pretty age_days +:+ " days old (> 90 days)")
         ("Rotate access key for user " +:+ username)
  else ComplianceResult.mk "SEC-IAM-002" "PASS"
         (username +:+ "/" +:+ AccessKeyId key)
         ("Access key is " +:+ pretty age_days +:+ " days old (< 90 days)")
         EmptyString.

(** [for key in keys], on the local [results] of the check. *)
Fixpoint access_keys_loop (username : string) (keys : list AccessKey)
    (check_results : list ComplianceResult.t) (w : Aws)
    : list ComplianceResult.t * Aws :=
  match keys with
  | [] => (check_results, w)
  | key :: rest =>
      let '(now, w) := datetime_now w in
      access_keys_loop username rest
        (check_results ++ [access_key_result username key now]) w
  end.

(** [for user in users]; a raising [list_access_keys] leaves the loop with
    the exception. *)
Fixpoint users_loop (users : list User)
    (check_results : list ComplianceResult.t) (w : Aws)
    : (string + list ComplianceResult.t) * Aws :=
  match users with
  | [] => (inr check_results, w)
  | user :: rest =>
      match list_access_keys w (UserName user) with
      | inl e => (inl e, w)
      | inr keys =>
          let '(check_results, w) :=
            access_keys_loop (UserName user) keys check_results w in
          users_loop rest check_results w
      end
  end.

(** [check_access_key_rotation(self)] *)
Definition check_access_key_rotation (env : Env Aws) : Outcome * Env Aws :=
  let failed e env :=
    (Returns [error_checking "SEC-IAM-002" "iam_keys" e],
     logger LogError ("Error checking access key rotation: " +:+ e) env) in
  match list_users (world env) with
  | inl e => failed e env
  | inr users =>
      match users_loop users [] (world env) with
      | (inr check_results, w) => (Returns check_results, set_world w env)
      | (inl e, w) => failed e (set_world w env)
      end
  end.

(** The two results appended for the default security group of a VPC: the
    inbound side, then the outbound side. *)
Definition inbound_result (vpc_id : string) (sg : SecurityGroup)
    : ComplianceResult.t :=
  match IpPermissions sg with
  | _ :: _ =>
      ComplianceResult.mk "SEC-VPC-001" "FAIL" (GroupId sg)
        ("Default security group for VPC " +:+ vpc_id
           +:+ " allows inbound traffic")
        "Remove all inbound rules from the default security group"
  | [] =>
      ComplianceResult.mk "SEC-VPC-001" "PASS" (GroupId sg)
        ("Default security group for VPC " +:+ vpc_id
           +:+ " restricts inbound traffic")
        EmptyString
  end.

Definition outbound_result (vpc_id : string) (sg : SecurityGroup)
    : ComplianceResult.t :=
  if negb (Nat.eqb (length (IpPermissionsEgress sg)) 0)
  then ComplianceResult.mk "SEC-VPC-001" "FAIL" (GroupId sg)
         ("Default security group for VPC " +:+ vpc_id
            +:+ " allows outbound traffic")
         "Remove all outbound rules from the default security group"
  else ComplianceResult.mk "SEC-VPC-001" "PASS" (GroupId sg)
         ("Default security group for VPC " +:+ vpc_id
            +:+ " restricts outbound traffic")
         EmptyString.

(** [for vpc in vpcs]: a VPC without a default group is skipped
    ([continue]), otherwise the first group of the response is judged. *)
Fixpoint vpcs_loop (vpcs : list Vpc)
    (check_results : list ComplianceResult.t) (w : Aws)
    : string + list ComplianceResult.t :=
  match vpcs with
  | [] => inr check_results
  | vpc :: rest =>
      match describe_security_groups w (VpcId vpc) with
      | inl e => inl e
      | inr [] => vpcs_loop rest check_results w
      | inr (sg :: _) =>
          let check_results :=
            check_results ++ [inbound_result (VpcId vpc) sg] in
          let check_results :=
            check_results ++ [outbound_result (VpcId vpc) sg] in
          vpcs_loop rest check_results w
      end
  end.

(** [check_default_security_groups(self)] *)
Definition check_default_security_groups (env : Env Aws)
    : Outcome * Env Aws :=
  let failed e :=
    (Returns [error_checking "SEC-VPC-001" "security_groups" e],
     logger LogError ("Error checking default security groups: " +:+ e)
       env) in
  match describe_vpcs (world env) with
  | inl e => failed e
  | inr vpcs =>
      match vpcs_loop vpcs [] (world env) with
      | inr check_results => (Returns check_results, env)
      | inl e => failed e
      end
  end.

(** A check of the class as [scan_all] calls it: the bound method, with the
    account before and after. *)
Definition bound_method (method : Env Aws → Outcome * Env Aws)
    : Check Aws :=
  λ w, let '(outcome, env) :=
         method {| world := w; log := []; fs := ∅ |} in
       (outcome, world env).

(** ** More vocabulary *)

(** The values interpolated into the Summary paragraph of the page built by
    [export_results_html]: the number of stored results and the counts of
    PASS, FAIL, WARNING and ERROR among them. *)
Definition html_summary_counts (self : SecurityComplianceScanner)
    : nat * nat * nat * nat * nat :=
  (length (results self),
   sum_1_for (status_is "PASS") (results self),
   sum_1_for (status_is "FAIL") (results self),
   sum_1_for (status_is "WARNING") (results self),
   sum_1_for (status_is "ERROR") (results self)).

(** The four statuses that have a counter of their own. *)
Definition counted_status (s : string) : bool :=
  String.eqb s "PASS" || String.eqb s "FAIL" || String.eqb s "WARNING"
  || String.eqb s "ERROR".

(** The sum of the four per-severity failed counts. *)
Definition severity_failed_totals (b : BySeverity) : nat :=
  sev_failed (CRITICAL b) + sev_failed (HIGH b) + sev_failed (MEDIUM b)
  + sev_failed (LOW b).

(** The rules of a catalog whose check name resolves to nothing. *)
Definition unresolved_rules {W : Type} (checks : string → option (Check W))
    (catalog : list ComplianceRule.t) : list ComplianceRule.t :=
  List.filter
    (λ rule,
       match checks (ComplianceRule.check_function rule) with
       | Some _ => false
       | None => true
       end) catalog.

(** The results that the security group check gives for one VPC. *)
Definition vpc_results (w : Aws) (vpc : Vpc) : list ComplianceResult.t :=
  match describe_security_groups w (VpcId vpc) with
  | inr (sg :: _) =>
      [inbound_result (VpcId vpc) sg; outbound_result (VpcId vpc) sg]
  | _ => []
  end.

(** The resource ids of the keys of the users, user by user. *)
Definition key_resources (w : Aws) (users : list User) : list string :=
  flat_map
    (λ user,
       match list_access_keys w (UserName user) with
       | inr keys =>
           map (λ key, UserName user +:+ "/" +:+ AccessKeyId key) keys
       | inl _ => []
       end) users.

(** Two summaries added counter by counter. *)
Definition add_severity_count (a b : SeverityCount) : SeverityCount :=
  {| total := total a + total b; sev_failed := sev_failed a + sev_failed b |}.

Definition add_summary (a b : Summary) : Summary :=
  {| total_checks := total_checks a + total_checks b;
     passed := passed a + passed b;
     failed := failed a + failed b;
     warnings := warnings a + warnings b;
     errors := errors a + errors b;
     by_severity :=
       {| CRITICAL := add_severity_count (CRITICAL (by_severity a))
                                         (CRITICAL (by_severity b));
          HIGH := add_severity_count (HIGH (by_severity a))
                                     (HIGH (by_severity b));
          MEDIUM := add_severity_count (MEDIUM (by_severity a))
                                       (MEDIUM (by_severity b));
          LOW := add_severity_count (LOW (by_severity a))
                                    (LOW (by_severity b)) |} |}.

(** The account after [n] more readings of the clock. *)
Definition advance (n : nat) (w : Aws) : Aws :=
  {| get_account_summary := get_account_summary w;
     list_users := list_users w;
     list_access_keys := list_access_keys w;
     describe_vpcs := describe_vpcs w;
     describe_security_groups := describe_security_groups w;
     clock := clock w;
     readings := n + readings w |}.

(** The VPC has a default security group to judge. *)
Definition has_default_group (w : Aws) (vpc : Vpc) : bool :=
  match describe_security_groups w (VpcId vpc) with
  | inr (_ :: _) => true
  | _ => false
  end.

(** A sample account: MFA on the root account, two users with three keys
    between them, two VPCs of which one has a default group that lets
    traffic in. The clock stands at day 100. *)
Definition day : Z := 86400000000.

Definition sample_aws : Aws :=
  {| get_account_summary := inr {[ "AccountMFAEnabled" := 1%Z ]};
     list_users := inr [ {| UserName := "alice" |}; {| UserName := "bob" |} ];
     list_access_keys := λ username,
       if String.eqb username "alice"
       then inr [ {| AccessKeyId := "AKIA1"; CreateDate := (10 * day)%Z |};
                  {| AccessKeyId := "AKIA2"; CreateDate := (9 * day)%Z |} ]
       else if String.eqb username "bob"
       then inr [ {| AccessKeyId := "AKIA3"; CreateDate := (99 * day)%Z |} ]
       else inl "NoSuchEntity";
     describe_vpcs := inr [ {| VpcId := "vpc-1" |}; {| VpcId := "vpc-2" |} ];
     describe_security_groups := λ vpc_id,
       if String.eqb vpc_id "vpc-1"
       then inr [ {| GroupId := "sg-1";
                     IpPermissions := [ {| IpProtocol := "tcp" |} ];
                     IpPermissionsEgress := [] |} ]
       else inr [];
     clock := λ _, (100 * day)%Z;
     readings := 0 |}.

(** The same account when the keys of [bob] cannot be listed. *)
Definition denied_aws : Aws :=
  {| get_account_summary := inl "AccessDenied";
     list_users := list_users sample_aws;
     list_access_keys := λ username,
       if String.eqb username "bob" then inl "AccessDenied"
       else list_access_keys sample_aws username;
     describe_vpcs := describe_vpcs sample_aws;
     describe_security_groups := λ vpc_id,
       if String.eqb vpc_id "vpc-2" then inl "UnauthorizedOperation"
       else describe_security_groups sample_aws vpc_id;
     clock := clock sample_aws;
     readings := 0 |}.

Definition aws_env (w : Aws) : Env Aws :=
  {| world := w; log := []; fs := ∅ |}.

(** ** Attribute lookup on the scanner *)

(** What [getattr(self, name, None)] can give on a scanner, as far as
    [scan_all] uses it. A bound method is called without argument on the
    scanner it was taken from; [call] is what the two statements
    [results = check_func()] and [all_results.extend(results)] do together:
    the elements appended, or the exception raised by either of them, and
    the scanner and the environment as the method left them (a method can
    assign attributes of [self]). Any other value has a truth value and the
    name of its type; calling it raises a [TypeError]. *)
Inductive Attribute (W : Type) : Type :=
  | BoundMethod
      (call : SecurityComplianceScanner → Env W →
              Outcome * SecurityComplianceScanner * Env W)
  | Data (truthy : bool) (type_name : string).
Arguments BoundMethod {W} _.
Arguments Data {W} _ _.

(** The text of the [TypeError] raised by calling a value that is not
    callable. *)
Definition not_callable (type_name : string) : string :=
  "'" +:+ type_name +:+ "' object is not callable".

Section ScannerAttributes.

Context {W : Type}.

(** [getattr(self, name, None)], for the scanner as it is at the time of
    the lookup. *)
Variable getattr_ :
  SecurityComplianceScanner → string → option (Attribute W).

(** One iteration of [for rule in self.rules] with the lookup on [self]:
    [if check_func:] is false for [None] and for a value that is falsy (an
    empty list, an empty string). *)
Definition scan_rule_getattr
    (acc : list ComplianceResult.t * SecurityComplianceScanner * Env W)
    (rule : ComplianceRule.t)
    : list ComplianceResult.t * SecurityComplianceScanner * Env W :=
  let '(all_results, self, env) := acc in
  let env :=
    logger LogInfo
      ("Running check: " +:+ ComplianceRule.id rule +:+ " - "
         +:+ ComplianceRule.title rule) env in
  let failed (e : string) (self : SecurityComplianceScanner)
             (env : Env W) :=
    (all_results ++ [check_error_result rule e], self,
     logger LogError
       ("Error running check " +:+ ComplianceRule.id rule +:+ ": " +:+ e)
       env) in
  let not_found :=
    (all_results ++ [not_implemented_result rule], self,
     logger LogWarning
       ("Check function '" +:+ ComplianceRule.check_function rule
          +:+ "' not found") env) in
  match getattr_ self (ComplianceRule.check_function rule) with
  | Some (BoundMethod call) =>
      match call self env with
      | (Returns check_results, self, env) =>
          (all_results ++ check_results, self, env)
      | (Raises _ e, self, env) => failed e self env
      end
  | Some (Data true type_name) => failed (not_callable type_name) self env
  | Some (Data false _) => not_found
  | None => not_found
  end.

(** [scan_all(self)] with the lookup on [self]. The loop runs over the list
    that [self.rules] held when it started; the summary reads the catalog
    of the scanner as the loop left it. *)
Definition scan_all_getattr (self : SecurityComplianceScanner)
    (env : Env W) : SecurityComplianceScanner * Env W * Report.t :=
  let '(all_results, self, env) :=
    fold_left scan_rule_getattr (rules self) ([], self, env) in
  let self := set_results self all_results in
  let summary := summarize self all_results in
  (self, env, Report.mk summary (map vars all_results)).

End ScannerAttributes.

(** A check in the sense of [Check] as an attribute: a bound method that
    reads the account and leaves the scanner alone. *)
Definition check_attribute {W : Type} (check_func : Check W)
    : Attribute W :=
  BoundMethod
    (λ self env,
       let '(outcome, w) := check_func (world env) in
       (outcome, self, set_world w env)).

(** The lookup when the names resolve to checks, the same on every
    scanner. *)
Definition getattr_checks {W : Type} (checks : string → option (Check W))
    (self : SecurityComplianceScanner) (name : string)
    : option (Attribute W) :=
  check_attribute <$> checks name.

(** A method of the class that returns a list of results, as an
    attribute. *)
Definition method_attribute (method : Env Aws → Outcome * Env Aws)
    : Attribute Aws :=
  BoundMethod
    (λ self env, let '(outcome, env) := method env in (outcome, self, env)).

(** [_load_default_rules] as an attribute: it assigns [self.rules] and
    returns [None], and [all_results.extend(None)] raises a [TypeError]. *)
Definition load_default_rules_attribute : Attribute Aws :=
  BoundMethod
    (λ self env,
       (Raises [] "'NoneType' object is not iterable",
        _load_default_rules self, env)).

(** The lookup on a scanner of the class, for the attributes set in
    [__init__] that are plain values and for the methods defined before
    [scan_all]; [others] answers for every other name. *)
Definition scanner_getattr
    (others : SecurityComplianceScanner → string → option (Attribute Aws))
    (self : SecurityComplianceScanner) (name : string)
    : option (Attribute Aws) :=
  if String.eqb name "region"
  then Some (Data (negb (String.eqb (region self) EmptyString)) "str")
  else if String.eqb name "rules"
  then Some (Data (negb (Nat.eqb (length (rules self)) 0)) "list")
  else if String.eqb name "results"
  then Some (Data (negb (Nat.eqb (length (results self)) 0)) "list")
  else if String.eqb name "_load_default_rules"
  then Some load_default_rules_attribute
  else if String.eqb name "check_root_mfa"
  then Some (method_attribute check_root_mfa)
  else if String.eqb name "check_access_key_rotation"
  then Some (method_attribute check_access_key_rotation)
  else if String.eqb name "check_default_security_groups"
  then Some (method_attribute check_default_security_groups)
  else others self name.

(** No attribute besides those of [scanner_getattr]. *)
Definition no_other_attribute (self : SecurityComplianceScanner)
    (name : string) : option (Attribute Aws) := None.

(** A rule that names the method that loads the catalog, a rule that names
    the attribute holding the stored results, and scanners with such a
    catalog. *)
Definition reload_rule : ComplianceRule.t :=
  ComplianceRule.mk "OPS-CAT-001" "Catalog Reload"
    "Names the method that loads the default rules"
    "LOW" "OPERATIONS" "GENERAL" "_load_default_rules".

Definition results_rule : ComplianceRule.t :=
  ComplianceRule.mk "OPS-RES-001" "Stored Results"
    "Names the attribute that holds the stored results"
    "LOW" "OPERATIONS" "GENERAL" "results".

Definition reload_scanner : SecurityComplianceScanner :=
  {| region := "us-gov-west-1"; rules := [reload_rule]; results := [] |}.

(** The three checks of the class under their names, for the samples. *)
Definition sample_class_checks (name : string) : option (Check Aws) :=
  if String.eqb name "check_root_mfa"
  then Some (bound_method check_root_mfa)
  else if String.eqb name "check_access_key_rotation"
       then Some (bound_method check_access_key_rotation)
  else if String.eqb name "check_default_security_groups"
       then Some (bound_method check_default_security_groups)
  else None.

(** A catalog in which a second rule repeats the id of the first one, and a
    scanner without any rule. *)
Definition repeated_id_rule : ComplianceRule.t :=
  ComplianceRule.mk "SEC-IAM-001" "Root MFA (legacy)"
    "Older wording of the root MFA rule"
    "LOW" "SECURITY" "IAM" "check_root_mfa_legacy".

Definition repeated_id_scanner : SecurityComplianceScanner :=
  {| region := "us-gov-west-1";
     rules := default_rules ++ [repeated_id_rule];
     results := [] |}.

Definition empty_scanner : SecurityComplianceScanner :=
  {| region := "us-gov-west-1"; rules := []; results := [] |}.

(** * Properties *)

(** ** Counting *)

Section Counting.
Context {A : Type}.
Implicit Types (cond : A → bool) (xs ys : list A).

Lemma sum_1_for_from cond xs (acc : nat) :
  fold_left (λ acc r, if cond r then acc + 1 else acc) xs acc
  = acc + sum_1_for cond xs.
Proof.
  unfold sum_1_for. revert acc.
  induction xs as [|x xs IH]; intros acc; simpl; [lia|].
  destruct (cond x).
  - rewrite (IH (acc + 1)), (IH 1). lia.
  - rewrite (IH acc), (IH 0). lia.
Qed.

Lemma sum_1_for_nil cond : sum_1_for cond [] = 0.
Proof. reflexivity. Qed.

Lemma sum_1_for_cons cond x xs :
  sum_1_for cond (x :: xs) = (if cond x then 1 else 0) + sum_1_for cond xs.
Proof.
  unfold sum_1_for at 1. simpl. rewrite sum_1_for_from.
  destruct (cond x); lia.
Qed.

Lemma sum_1_for_app cond xs ys :
  sum_1_for cond (xs ++ ys) = sum_1_for cond xs + sum_1_for cond ys.
Proof.
  induction xs as [|x xs IH]; [reflexivity|].
  rewrite <- app_comm_cons, !sum_1_for_cons, IH. lia.
Qed.

Lemma sum_1_for_filter cond xs :
  sum_1_for cond xs = length (List.filter cond xs).
Proof.
  induction xs as [|x xs IH]; [reflexivity|].
  rewrite sum_1_for_cons. simpl. destruct (cond x); simpl; lia.
Qed.

Lemma sum_1_for_le cond xs : sum_1_for cond xs ≤ length xs.
Proof.
  induction xs as [|x xs IH]; [reflexivity|].
  rewrite sum_1_for_cons. simpl. destruct (cond x); lia.
Qed.

Lemma sum_1_for_Permutation cond xs ys :
  Permutation xs ys → sum_1_for cond xs = sum_1_for cond ys.
Proof.
  induction 1 as [|x xs ys _ IH|x y xs|xs ys zs _ IH1 _ IH2].
  - reflexivity.
  - rewrite !sum_1_for_cons. lia.
  - rewrite !sum_1_for_cons. lia.
  - congruence.
Qed.

Lemma sum_1_for_ext cond cond' xs :
  (∀ x, cond x = cond' x) → sum_1_for cond xs = sum_1_for cond' xs.
Proof.
  intros E. induction xs as [|x xs IH]; [reflexivity|].
  rewrite !sum_1_for_cons, E, IH. reflexivity.
Qed.

End Counting.

(** ** The scan loop against the dispatcher *)

Section ScanLoop.
Context {W : Type}.
Variable checks : string → option (Check W).
Implicit Types (rule : ComplianceRule.t) (catalog : list ComplianceRule.t).
Implicit Types (acc : list ComplianceResult.t) (env : Env W) (w : W).

(** An iteration appends the rule's results to [all_results], moves the
    world as the check did, and leaves the files alone. *)
Lemma scan_rule_spec acc env rule :
  (scan_rule checks (acc, env) rule).1
    = acc ++ (run_rule checks rule (world env)).1
  ∧ world (scan_rule checks (acc, env) rule).2
    = (run_rule checks rule (world env)).2
  ∧ fs (scan_rule checks (acc, env) rule).2 = fs env.
Proof.
  unfold scan_rule, run_rule. simpl.
  destruct (checks (ComplianceRule.check_function rule)) as [check_func|];
    [|done].
  destruct (check_func (world env)) as [[check_results|partial e] w']; done.
Qed.

Lemma scan_fold_spec catalog acc env :
  (fold_left (scan_rule checks) catalog (acc, env)).1
    = acc ++ run_all checks catalog (world env)
  ∧ world (fold_left (scan_rule checks) catalog (acc, env)).2
    = world_after checks catalog (world env)
  ∧ fs (fold_left (scan_rule checks) catalog (acc, env)).2 = fs env.
Proof.
  revert acc env.
  induction catalog as [|rule rest IH]; intros acc env;
    cbn [fold_left run_all world_after].
  - by rewrite app_nil_r.
  - destruct (scan_rule_spec acc env rule) as (Hres & Hw & Hfs).
    destruct (scan_rule checks (acc, env) rule) as [acc' env'].
    simpl in Hres, Hw, Hfs.
    destruct (IH acc' env') as (IHres & IHw & IHfs).
    rewrite IHres, IHw, IHfs, Hres, Hw, Hfs.
    destruct (run_rule checks rule (world env)) as [out w'].
    simpl. by rewrite app_assoc.
Qed.

Lemma scan_loop_results catalog env :
  (scan_loop checks catalog env).1 = run_all checks catalog (world env).
Proof. unfold scan_loop. by destruct (scan_fold_spec catalog [] env). Qed.

Lemma run_all_app catalog1 catalog2 w :
  run_all checks (catalog1 ++ catalog2) w
  = run_all checks catalog1 w
    ++ run_all checks catalog2 (world_after checks catalog1 w).
Proof.
  revert w. induction catalog1 as [|rule rest IH]; intros w; simpl; [done|].
  destruct (run_rule checks rule w) as [out w']. simpl.
  by rewrite IH, app_assoc.
Qed.

(** What [scan_all] stores, returns and leaves behind. *)
Lemma scan_all_spec (self : SecurityComplianceScanner) env :
  let all_results := run_all checks (rules self) (world env) in
  (scan_all checks self env).1.1 = set_results self all_results
  ∧ (scan_all checks self env).2
    = Report.mk (summarize self all_results) (map vars all_results)
  ∧ fs (scan_all checks self env).1.2 = fs env.
Proof.
  intros all_results. subst all_results. unfold scan_all.
  pose proof (scan_loop_results (rules self) env) as Hres.
  destruct (scan_fold_spec (rules self) [] env) as (_ & _ & Hfs).
  fold (scan_loop checks (rules self) env) in Hfs.
  destruct (scan_loop checks (rules self) env) as [rs env'].
  simpl in *. subst rs. done.
Qed.

End ScanLoop.

(** ** The dispatcher *)

(** C5. The result sequence that a full scan stores and returns is the
    in-order concatenation of the per-rule results: it is [run_all] over the
    catalog, which puts the results of an earlier part of the catalog before
    those of a later part, and a check that returns hands over its results
    in the order it produced them. *)
Theorem scan_all_concatenates_in_catalog_order {W : Type}
    (checks : string → option (Check W))
    (self : SecurityComplianceScanner) (env : Env W) :
  results (scan_all checks self env).1.1
    = run_all checks (rules self) (world env)
  ∧ Report.results (scan_all checks self env).2
    = map vars (run_all checks (rules self) (world env))
  ∧ (∀ catalog1 catalog2 w,
       run_all checks (catalog1 ++ catalog2) w
       = run_all checks catalog1 w
         ++ run_all checks catalog2 (world_after checks catalog1 w))
  ∧ (∀ rule rest w check_func check_results w',
       checks (ComplianceRule.check_function rule) = Some check_func →
       check_func w = (Returns check_results, w') →
       run_all checks (rule :: rest) w
       = check_results ++ run_all checks rest w').
Proof.
  destruct (scan_all_spec checks self env) as (Hself & Hrep & _).
  rewrite Hself, Hrep. repeat split.
  - apply run_all_app.
  - intros rule rest w check_func check_results w' Hc Hr.
    simpl. unfold run_rule. by rewrite Hc, Hr.
Qed.

(** C3. A rule whose check name resolves to no check contributes exactly
    one result: status ERROR, resource id N/A, details saying that the check
    function is not implemented. The results of the rules before it and of
    the rules after it are all there, around that one result. *)
Theorem unresolved_check_yields_one_error {W : Type}
    (checks : string → option (Check W))
    (self : SecurityComplianceScanner) (env : Env W)
    (before after : list ComplianceRule.t) (rule : ComplianceRule.t) :
  rules self = before ++ rule :: after →
  checks (ComplianceRule.check_function rule) = None →
  ∃ r : ComplianceResult.t,
    ComplianceResult.rule_id r = ComplianceRule.id rule
    ∧ ComplianceResult.status r = "ERROR"
    ∧ ComplianceResult.resource_id r = "N/A"
    ∧ ComplianceResult.details r
      = "Check function '" +:+ ComplianceRule.check_function rule
          +:+ "' not implemented"
    ∧ (∀ w, run_rule checks rule w = ([r], w))
    ∧ results (scan_all checks self env).1.1
      = run_all checks before (world env) ++ [r]
          ++ run_all checks after (world_after checks before (world env)).
Proof.
  intros Hrules Hnone. exists (not_implemented_result rule).
  repeat split.
  - intros w. unfold run_rule. by rewrite Hnone.
  - destruct (scan_all_spec checks self env) as (-> & _ & _). simpl.
    rewrite Hrules, run_all_app. simpl. unfold run_rule. by rewrite Hnone.
Qed.

(** C4. A rule whose check raises contributes exactly one result: status
    ERROR, with the message of the exception at the end of the details.
    Whatever the check had computed before raising is not in the sequence,
    the scan returns its report, and the results of the rules before and
    after are all there, once each, around that one result. *)
Theorem raising_check_yields_one_error {W : Type}
    (checks : string → option (Check W))
    (self : SecurityComplianceScanner) (env : Env W)
    (before after : list ComplianceRule.t) (rule : ComplianceRule.t)
    (check_func : Check W) (partial : list ComplianceResult.t)
    (message : string) (w' : W) :
  rules self = before ++ rule :: after →
  checks (ComplianceRule.check_function rule) = Some check_func →
  check_func (world_after checks before (world env))
    = (Raises partial message, w') →
  ∃ r : ComplianceResult.t,
    ComplianceResult.rule_id r = ComplianceRule.id rule
    ∧ ComplianceResult.status r = "ERROR"
    ∧ ComplianceResult.resource_id r = "N/A"
    ∧ ComplianceResult.details r = "Error running check: " +:+ message
    ∧ run_rule checks rule (world_after checks before (world env))
      = ([r], w')
    ∧ results (scan_all checks self env).1.1
      = run_all checks before (world env) ++ [r]
          ++ run_all checks after w'
    ∧ Report.results (scan_all checks self env).2
      = map vars (run_all checks before (world env) ++ [r]
                    ++ run_all checks after w').
Proof.
  intros Hrules Hsome Hraise. exists (check_error_result rule message).
  assert (Hrun : run_rule checks rule (world_after checks before (world env))
                 = ([check_error_result rule message], w')).
  { unfold run_rule. by rewrite Hsome, Hraise. }
  assert (Hall : run_all checks (rules self) (world env)
                 = run_all checks before (world env)
                     ++ [check_error_result rule message]
                     ++ run_all checks after w').
  { rewrite Hrules, run_all_app. simpl. by rewrite Hrun. }
  destruct (scan_all_spec checks self env) as (-> & -> & _). simpl.
  rewrite Hall. done.
Qed.

(** ** The summary *)

Section Summary.
Variable self : SecurityComplianceScanner.
Implicit Types (r : ComplianceResult.t) (R : list ComplianceResult.t).

Lemma get_rule_severity_next_rule rule_id :
  _get_rule_severity self rule_id
  = match next_rule self rule_id with
    | Some rule => ComplianceRule.severity rule
    | None => "UNKNOWN"
    end.
Proof.
  unfold _get_rule_severity, next_rule.
  induction (rules self) as [|rule rest IH]; simpl; [done|].
  by destruct (String.eqb (ComplianceRule.id rule) rule_id).
Qed.

Lemma known_severity_resolves r :
  known_severity (_get_rule_severity self (ComplianceResult.rule_id r)) = true
  ↔ resolves_to_known_severity self r.
Proof.
  unfold resolves_to_known_severity. rewrite get_rule_severity_next_rule.
  destruct (next_rule self (ComplianceResult.rule_id r)) as [rule|].
  - split; [intros H; by exists rule|]. by intros (rule' & [= <-] & H).
  - split; [done|]. by intros (rule' & [=] & _).
Qed.

(** A result falls in one bucket when its severity is one of the four, and
    in none otherwise. *)
Lemma severity_buckets_indicator r :
  (if severity_is self "CRITICAL" r then 1 else 0)
  + (if severity_is self "HIGH" r then 1 else 0)
  + (if severity_is self "MEDIUM" r then 1 else 0)
  + (if severity_is self "LOW" r then 1 else 0)
  = if known_severity (_get_rule_severity self (ComplianceResult.rule_id r))
    then 1 else 0.
Proof.
  unfold severity_is, known_severity.
  generalize (_get_rule_severity self (ComplianceResult.rule_id r)) as sev.
  intros sev.
  destruct (String.eqb_spec sev "CRITICAL") as [->|_]; [done|].
  destruct (String.eqb_spec sev "HIGH") as [->|_]; [done|].
  destruct (String.eqb_spec sev "MEDIUM") as [->|_]; [done|].
  by destruct (String.eqb_spec sev "LOW") as [->|_].
Qed.

Lemma severity_totals_count R :
  severity_totals (by_severity (summarize self R))
  = sum_1_for
      (λ r, known_severity
              (_get_rule_severity self (ComplianceResult.rule_id r))) R.
Proof.
  unfold severity_totals. simpl.
  induction R as [|r R IH]; [done|].
  rewrite !sum_1_for_cons, <- IH, <- severity_buckets_indicator. lia.
Qed.

Lemma sum_1_for_all {A : Type} (cond : A → bool) (xs : list A) :
  sum_1_for cond xs = length xs ↔ Forall (λ x, cond x = true) xs.
Proof.
  induction xs as [|x xs IH]; [by split|].
  rewrite sum_1_for_cons, Forall_cons. simpl.
  pose proof (sum_1_for_le cond xs) as Hle.
  destruct (cond x); split.
  - intros H. split; [done|]. apply IH. lia.
  - intros [_ H]. apply IH in H. lia.
  - intros H. lia.
  - by intros [? _].
Qed.

Lemma severity_count_skip sev r R1 R2 :
  severity_is self sev r = false →
  severity_count self sev (R1 ++ r :: R2)
  = severity_count self sev (R1 ++ R2).
Proof.
  intros H. unfold severity_count.
  rewrite !sum_1_for_app, !sum_1_for_cons, H. done.
Qed.

(** The five statuses are told apart by the four counters and the count of
    the results that do not apply. *)
Lemma status_indicator r :
  known_status (ComplianceResult.status r) = true →
  (if status_is "PASS" r then 1 else 0)
  + (if status_is "FAIL" r then 1 else 0)
  + (if status_is "WARNING" r then 1 else 0)
  + (if status_is "ERROR" r then 1 else 0)
  + (if status_is "NOT_APPLICABLE" r then 1 else 0) = 1.
Proof.
  unfold status_is, known_status.
  generalize (ComplianceResult.status r) as s. intros s.
  destruct (String.eqb_spec s "PASS") as [->|_]; [done|].
  destruct (String.eqb_spec s "FAIL") as [->|_]; [done|].
  destruct (String.eqb_spec s "WARNING") as [->|_]; [done|].
  destruct (String.eqb_spec s "NOT_APPLICABLE") as [->|_]; [done|].
  by destruct (String.eqb_spec s "ERROR") as [->|_].
Qed.

End Summary.

(** C1. The total of the summary is the length of the result sequence, for
    every sequence and every catalog; in particular the report of a scan
    gives as [total_checks] the number of results the scan stored and
    returned. *)
Theorem total_checks_is_length {W : Type}
    (checks : string → option (Check W))
    (self : SecurityComplianceScanner) (env : Env W)
    (R : list ComplianceResult.t) :
  total_checks (summarize self R) = length R
  ∧ total_checks (Report.summary (scan_all checks self env).2)
    = length (results (scan_all checks self env).1.1)
  ∧ total_checks (Report.summary (scan_all checks self env).2)
    = length (Report.results (scan_all checks self env).2).
Proof.
  destruct (scan_all_spec checks self env) as (-> & -> & _). simpl.
  by rewrite length_map.
Qed.

(** C2. The four per-severity totals add up to at most the number of
    results, and to exactly that number if and only if every result's rule
    is found in the catalog with one of the four severities. A result whose
    rule is not found has severity UNKNOWN, matches none of the four
    buckets, and leaves every per-severity count as it is without it. *)
Theorem severity_totals_bounded (self : SecurityComplianceScanner)
    (R : list ComplianceResult.t) :
  severity_totals (by_severity (summarize self R)) ≤ length R
  ∧ (severity_totals (by_severity (summarize self R)) = length R
     ↔ Forall (resolves_to_known_severity self) R)
  ∧ (∀ r : ComplianceResult.t,
       next_rule self (ComplianceResult.rule_id r) = None →
       _get_rule_severity self (ComplianceResult.rule_id r) = "UNKNOWN"
       ∧ (∀ sev, known_severity sev = true → severity_is self sev r = false)
       ∧ (∀ R1 R2,
            by_severity (summarize self (R1 ++ r :: R2))
            = by_severity (summarize self (R1 ++ R2)))).
Proof.
  rewrite severity_totals_count. split; [apply sum_1_for_le|]. split.
  - rewrite sum_1_for_all. apply Forall_iff. intros r.
    apply known_severity_resolves.
  - intros r Hnone.
    assert (Hsev : _get_rule_severity self (ComplianceResult.rule_id r)
                   = "UNKNOWN")
      by (by rewrite get_rule_severity_next_rule, Hnone).
    assert (Hout : ∀ sev, known_severity sev = true →
                          severity_is self sev r = false).
    { intros sev Hk. unfold severity_is. rewrite Hsev.
      destruct (String.eqb_spec "UNKNOWN" sev) as [<-|_]; done. }
    split; [done|]. split; [done|].
    intros R1 R2. simpl. by rewrite !severity_count_skip by by apply Hout.
Qed.

(** C7. A result with status NOT_APPLICABLE adds one to the total and
    nothing to the counters passed, failed, warnings and errors; and when
    every status is one of the five, the total is the sum of the four
    counters and of the number of NOT_APPLICABLE results. *)
Theorem not_applicable_counts_in_total_only
    (self : SecurityComplianceScanner)
    (R R1 R2 : list ComplianceResult.t) (r : ComplianceResult.t) :
  (ComplianceResult.status r = "NOT_APPLICABLE" →
   total_checks (summarize self (R1 ++ r :: R2))
     = S (total_checks (summarize self (R1 ++ R2)))
   ∧ passed (summarize self (R1 ++ r :: R2))
     = passed (summarize self (R1 ++ R2))
   ∧ failed (summarize self (R1 ++ r :: R2))
     = failed (summarize self (R1 ++ R2))
   ∧ warnings (summarize self (R1 ++ r :: R2))
     = warnings (summarize self (R1 ++ R2))
   ∧ errors (summarize self (R1 ++ r :: R2))
     = errors (summarize self (R1 ++ R2)))
  ∧ (Forall (λ r, known_status (ComplianceResult.status r) = true) R →
     total_checks (summarize self R)
     = passed (summarize self R) + failed (summarize self R)
       + warnings (summarize self R) + errors (summarize self R)
       + sum_1_for (status_is "NOT_APPLICABLE") R).
Proof.
  split.
  - intros Hna. simpl.
    rewrite !length_app, !sum_1_for_app, !sum_1_for_cons. simpl.
    unfold status_is. rewrite Hna. simpl. lia.
  - intros Hknown. simpl.
    induction Hknown as [|r' R' Hr' _ IH]; [done|].
    rewrite !sum_1_for_cons. simpl.
    pose proof (status_indicator r' Hr'). lia.
Qed.

(** C8. The summary does not depend on the order of the results: over a
    permutation of the sequence it is the same summary, counter by counter
    and bucket by bucket. *)
Theorem summarize_order_independent (self : SecurityComplianceScanner)
    (R R' : list ComplianceResult.t) :
  Permutation R R' → summarize self R' = summarize self R.
Proof.
  intros Hperm. unfold summarize, severity_count.
  rewrite (Permutation_length Hperm).
  by rewrite !(sum_1_for_Permutation _ _ _ Hperm).
Qed.

(** ** The exporters *)

Lemma report_data_from (self : SecurityComplianceScanner)
    (rs : list ComplianceResult.t) (data : list ReportRow) :
  fold_left (λ data result, data ++ [report_row self result]) rs data
  = data ++ map (report_row self) rs.
Proof.
  revert data. induction rs as [|r rs IH]; intros data; simpl.
  - by rewrite app_nil_r.
  - by rewrite IH, <- app_assoc.
Qed.

Lemma report_data_map (self : SecurityComplianceScanner) :
  report_data self = map (report_row self) (results self).
Proof. unfold report_data. by rewrite report_data_from. Qed.

Lemma next_rule_None (self : SecurityComplianceScanner) (rule_id : string) :
  next_rule self rule_id = None
  ↔ ¬ In rule_id (map ComplianceRule.id (rules self)).
Proof.
  unfold next_rule. induction (rules self) as [|rule rest IH]; simpl.
  - split; [tauto|done].
  - destruct (String.eqb_spec (ComplianceRule.id rule) rule_id) as [E|E].
    + split; [done|]. intros H. destruct H. by left.
    + rewrite IH. tauto.
Qed.

Lemma next_rule_Some (self : SecurityComplianceScanner) (rule_id : string)
    (rule : ComplianceRule.t) :
  next_rule self rule_id = Some rule →
  In rule (rules self) ∧ ComplianceRule.id rule = rule_id.
Proof.
  unfold next_rule. intros H. apply find_some in H as [Hin Heq].
  split; [done|]. by apply String.eqb_eq.
Qed.

(** C6. The row of a result whose rule id is absent from the catalog has
    the four metadata fields set to Unknown and the result's own fields
    unchanged; the row of a result whose rule id is in the catalog takes
    title, severity, category and service from the matching rule. Both
    exporters build exactly these rows, one per stored result, in order. *)
Theorem report_row_projection {W : Type}
    (to_csv : list ReportRow → string)
    (html_report :
       SecurityComplianceScanner → list ReportRow → string → Env W →
       SecurityComplianceScanner * Env W)
    (self : SecurityComplianceScanner) (result : ComplianceResult.t)
    (filename : string) (env : Env W) :
  (¬ In (ComplianceResult.rule_id result)
        (map ComplianceRule.id (rules self)) →
   report_row self result
   = {| Rule_ID := ComplianceResult.rule_id result;
        Title := "Unknown"; Severity := "Unknown";
        Category := "Unknown"; Service := "Unknown";
        Status := ComplianceResult.status result;
        Resource_ID := ComplianceResult.resource_id result;
        Details := ComplianceResult.details result;
        Remediation := ComplianceResult.remediation result |})
  ∧ (In (ComplianceResult.rule_id result)
        (map ComplianceRule.id (rules self)) →
     ∃ rule : ComplianceRule.t,
       In rule (rules self)
       ∧ ComplianceRule.id rule = ComplianceResult.rule_id result
       ∧ next_rule self (ComplianceResult.rule_id result) = Some rule
       ∧ report_row self result
         = {| Rule_ID := ComplianceResult.rule_id result;
              Title := ComplianceRule.title rule;
              Severity := ComplianceRule.severity rule;
              Category := ComplianceRule.category rule;
              Service := ComplianceRule.service rule;
              Status := ComplianceResult.status result;
              Resource_ID := ComplianceResult.resource_id result;
              Details := ComplianceResult.details result;
              Remediation := ComplianceResult.remediation result |})
  ∧ report_data self = map (report_row self) (results self)
  ∧ (results self ≠ [] →
     export_results_csv to_csv self filename env
     = (self,
        logger LogInfo ("Results exported to " +:+ filename)
          (write_file filename
             (to_csv (map (report_row self) (results self))) env))
     ∧ export_results_html html_report self filename env
       = html_report self (map (report_row self) (results self))
           filename env).
Proof.
  split; [|split; [|split]].
  - intros Habsent. apply next_rule_None in Habsent.
    unfold report_row. by rewrite Habsent.
  - intros Hin.
    destruct (next_rule self (ComplianceResult.rule_id result))
      as [rule|] eqn:Hnext.
    + exists rule. destruct (next_rule_Some _ _ _ Hnext) as [Hr Hid].
      repeat split; [done..|]. unfold report_row. by rewrite Hnext.
    + apply next_rule_None in Hnext. contradiction.
  - apply report_data_map.
  - intros Hne. unfold export_results_csv, export_results_html.
    rewrite report_data_map. by destruct (results self).
Qed.

(** C10. With no stored results, the CSV export and the HTML export return
    at once: no file is written or created, the scanner is as it was, and
    the only trace is the warning in the log. *)
Theorem export_without_results_writes_nothing {W : Type}
    (to_csv : list ReportRow → string)
    (html_report :
       SecurityComplianceScanner → list ReportRow → string → Env W →
       SecurityComplianceScanner * Env W)
    (self : SecurityComplianceScanner) (filename : string) (env : Env W) :
  results self = [] →
  (export_results_csv to_csv self filename env).1 = self
  ∧ fs (export_results_csv to_csv self filename env).2 = fs env
  ∧ fs (export_results_csv to_csv self filename env).2 !! filename
    = fs env !! filename
  ∧ export_results_csv to_csv self filename env
    = (self, logger LogWarning "No results to export" env)
  ∧ (export_results_html html_report self filename env).1 = self
  ∧ fs (export_results_html html_report self filename env).2 = fs env
  ∧ fs (export_results_html html_report self filename env).2 !! filename
    = fs env !! filename
  ∧ export_results_html html_report self filename env
    = (self, logger LogWarning "No results to export" env).
Proof.
  intros Hempty. unfold export_results_csv, export_results_html.
  by rewrite Hempty.
Qed.

(** ** The properties at the sample inputs *)

(** The three-rule scenario: four results in rule order, one of each
    status counted. *)
Example three_rule_scenario :
  map ComplianceResult.status
      (results (scan_all sample_checks three_rule_scanner sample_env).1.1)
  = ["PASS"; "ERROR"; "FAIL"; "WARNING"]
  ∧ (let s := Report.summary
                (scan_all sample_checks three_rule_scanner sample_env).2 in
     (total_checks s, passed s, failed s, warnings s, errors s)
     = (4, 1, 1, 1, 1)).
Proof. split; reflexivity. Qed.

(** The default catalog over the sample checks: the eight rules whose
    checks are not there each give their one ERROR result. *)
Example default_catalog_scan :
  let s := Report.summary
             (scan_all sample_checks fresh_scanner sample_env).2 in
  (total_checks s, passed s, failed s, warnings s, errors s)
  = (12, 1, 1, 1, 9)
  ∧ severity_totals (by_severity s) = 12.
Proof. split; reflexivity. Qed.

Lemma scan_all_concatenates_witness :
  results (scan_all sample_checks three_rule_scanner sample_env).1.1
  = run_all sample_checks (take 3 default_rules) 0
  ∧ run_all sample_checks (take 3 default_rules) 0
    = [ComplianceResult.mk "SEC-IAM-001" "PASS" "root"
         "Root account has MFA enabled" EmptyString]
      ++ run_all sample_checks (drop 1 (take 3 default_rules)) 1.
Proof.
  destruct (scan_all_concatenates_in_catalog_order sample_checks
              three_rule_scanner sample_env) as (Hres & _ & _ & Hret).
  split; [exact Hres|].
  apply (Hret _ _ 0 sample_root_mfa); reflexivity.
Defined.

Lemma unresolved_check_witness :
  fresh_scanner.(rules)
  = take 3 default_rules ++ eks_logging_rule :: drop 4 default_rules
  ∧ sample_checks (ComplianceRule.check_function eks_logging_rule) = None
  ∧ ∃ r : ComplianceResult.t,
      ComplianceResult.rule_id r = "SEC-EKS-001"
      ∧ ComplianceResult.status r = "ERROR"
      ∧ ComplianceResult.resource_id r = "N/A"
      ∧ ComplianceResult.details r
        = "Check function 'check_eks_logging' not implemented"
      ∧ (∀ w, run_rule sample_checks eks_logging_rule w = ([r], w))
      ∧ results (scan_all sample_checks fresh_scanner sample_env).1.1
        = run_all sample_checks (take 3 default_rules) 0 ++ [r]
            ++ run_all sample_checks (drop 4 default_rules)
                 (world_after sample_checks (take 3 default_rules) 0).
Proof.
  split; [reflexivity|]. split; [reflexivity|].
  apply (unresolved_check_yields_one_error sample_checks fresh_scanner
           sample_env (take 3 default_rules) (drop 4 default_rules)
           eks_logging_rule); reflexivity.
Defined.

Lemma raising_check_witness :
  sample_access_key_rotation
    (world_after sample_checks (take 1 default_rules) 0)
  = (Raises [ComplianceResult.mk "SEC-IAM-002" "PASS" "alice/AKIA1"
               "Access key is 3 days old (< 90 days)" EmptyString]
            "AccessDenied", 2)
  ∧ ∃ r : ComplianceResult.t,
      ComplianceResult.rule_id r = "SEC-IAM-002"
      ∧ ComplianceResult.status r = "ERROR"
      ∧ ComplianceResult.resource_id r = "N/A"
      ∧ ComplianceResult.details r = "Error running check: AccessDenied"
      ∧ run_rule sample_checks access_key_rule
          (world_after sample_checks (take 1 default_rules) 0)
        = ([r], 2)
      ∧ results (scan_all sample_checks fresh_scanner sample_env).1.1
        = run_all sample_checks (take 1 default_rules) 0 ++ [r]
            ++ run_all sample_checks (drop 2 default_rules) 2
      ∧ Report.results (scan_all sample_checks fresh_scanner sample_env).2
        = map vars (run_all sample_checks (take 1 default_rules) 0 ++ [r]
                      ++ run_all sample_checks (drop 2 default_rules) 2).
Proof.
  split; [reflexivity|].
  apply (raising_check_yields_one_error sample_checks fresh_scanner
           sample_env (take 1 default_rules) (drop 2 default_rules)
           access_key_rule sample_access_key_rotation
           [ComplianceResult.mk "SEC-IAM-002" "PASS" "alice/AKIA1"
              "Access key is 3 days old (< 90 days)" EmptyString]
           "AccessDenied" 2); reflexivity.
Defined.

Lemma severity_totals_witness :
  severity_totals
    (by_severity (summarize fresh_scanner [not_applicable_result])) = 1
  ∧ next_rule fresh_scanner "OLD-RULE-009" = None
  ∧ _get_rule_severity fresh_scanner "OLD-RULE-009" = "UNKNOWN"
  ∧ by_severity
      (summarize fresh_scanner [not_applicable_result; stray_result])
    = by_severity (summarize fresh_scanner [not_applicable_result]).
Proof.
  destruct (severity_totals_bounded fresh_scanner [not_applicable_result])
    as (_ & Hiff & Hstray).
  split.
  { apply Hiff. constructor; [|constructor].
    exists eks_logging_rule. split; reflexivity. }
  split; [reflexivity|].
  destruct (Hstray stray_result) as (Hsev & _ & Hskip); [reflexivity|].
  split; [exact Hsev|]. exact (Hskip [not_applicable_result] []).
Defined.

Lemma not_applicable_witness :
  ComplianceResult.status not_applicable_result = "NOT_APPLICABLE"
  ∧ total_checks
      (summarize fresh_scanner [stray_result; not_applicable_result]) = 2
  ∧ passed (summarize fresh_scanner [stray_result; not_applicable_result])
    + failed (summarize fresh_scanner [stray_result; not_applicable_result])
    + warnings (summarize fresh_scanner [stray_result; not_applicable_result])
    + errors (summarize fresh_scanner [stray_result; not_applicable_result])
    = 1
  ∧ failed (summarize fresh_scanner [stray_result; not_applicable_result])
    = failed (summarize fresh_scanner [stray_result]).
Proof.
  destruct (not_applicable_counts_in_total_only fresh_scanner
              [stray_result; not_applicable_result] [stray_result] []
              not_applicable_result) as (Hna & Hsum).
  split; [reflexivity|].
  destruct Hna as (_ & _ & Hfailed & _); [reflexivity|].
  assert (Hknown :
    Forall (λ r, known_status (ComplianceResult.status r) = true)
           [stray_result; not_applicable_result])
    by (repeat constructor).
  specialize (Hsum Hknown).
  split; [reflexivity|]. split; [|exact Hfailed].
  change (sum_1_for (status_is "NOT_APPLICABLE")
            [stray_result; not_applicable_result]) with 1 in Hsum.
  change (total_checks
            (summarize fresh_scanner [stray_result; not_applicable_result]))
    with 2 in Hsum.
  lia.
Defined.

Lemma summarize_order_witness :
  Permutation [stray_result; not_applicable_result]
              [not_applicable_result; stray_result]
  ∧ summarize fresh_scanner [not_applicable_result; stray_result]
    = summarize fresh_scanner [stray_result; not_applicable_result].
Proof.
  split; [apply perm_swap|].
  apply summarize_order_independent, perm_swap.
Defined.

Lemma report_row_witness :
  ¬ In (ComplianceResult.rule_id stray_result)
       (map ComplianceRule.id (rules scanned_scanner))
  ∧ Title (report_row scanned_scanner stray_result) = "Unknown"
  ∧ Status (report_row scanned_scanner stray_result) = "FAIL"
  ∧ fs (export_results_csv sample_to_csv scanned_scanner "report.csv"
          sample_env).2 !! "report.csv"
    = Some "OLD-RULE-009|SEC-EKS-001".
Proof.
  assert (Habsent : ¬ In (ComplianceResult.rule_id stray_result)
                         (map ComplianceRule.id (rules scanned_scanner))).
  { simpl. intros H.
    repeat (destruct H as [H|H]; [discriminate H|]). exact H. }
  destruct (report_row_projection sample_to_csv sample_html_report
              scanned_scanner stray_result "report.csv" sample_env)
    as (Hunknown & _ & _ & Hexport).
  split; [exact Habsent|].
  rewrite (Hunknown Habsent).
  split; [reflexivity|]. split; [reflexivity|].
  destruct Hexport as [-> _]; [discriminate|]. reflexivity.
Defined.

Lemma export_without_results_witness :
  results fresh_scanner = []
  ∧ (export_results_csv sample_to_csv fresh_scanner "report.csv"
       sample_env).1 = fresh_scanner
  ∧ fs (export_results_csv sample_to_csv fresh_scanner "report.csv"
          sample_env).2 !! "report.csv" = None
  ∧ fs (export_results_html sample_html_report fresh_scanner "report.html"
          sample_env).2 !! "report.html" = None.
Proof.
  split; [reflexivity|].
  destruct (export_without_results_writes_nothing sample_to_csv
              sample_html_report fresh_scanner "report.csv" sample_env)
    as (Hself & _ & Hcsv & _); [reflexivity|].
  destruct (export_without_results_writes_nothing sample_to_csv
              sample_html_report fresh_scanner "report.html" sample_env)
    as (_ & _ & _ & _ & _ & _ & Hhtml & _); [reflexivity|].
  split; [exact Hself|]. split; [rewrite Hcsv|rewrite Hhtml]; reflexivity.
Defined.

(** * Further properties of the scanner *)

(** ** The summary as a sum *)

(** The summary of two result sequences put end to end is the sum of their
    summaries, counter by counter and bucket by bucket. *)
Theorem summarize_app (self : SecurityComplianceScanner)
    (R1 R2 : list ComplianceResult.t) :
  summarize self (R1 ++ R2)
  = add_summary (summarize self R1) (summarize self R2).
Proof.
  unfold summarize, add_summary, severity_count, add_severity_count. simpl.
  by rewrite length_app, !sum_1_for_app.
Qed.

Lemma counted_status_indicator (r : ComplianceResult.t) :
  (if status_is "PASS" r then 1 else 0)
  + (if status_is "FAIL" r then 1 else 0)
  + (if status_is "WARNING" r then 1 else 0)
  + (if status_is "ERROR" r then 1 else 0)
  = if counted_status (ComplianceResult.status r) then 1 else 0.
Proof.
  unfold status_is, counted_status.
  generalize (ComplianceResult.status r) as s. intros s.
  destruct (String.eqb_spec s "PASS") as [->|_]; [done|].
  destruct (String.eqb_spec s "FAIL") as [->|_]; [done|].
  destruct (String.eqb_spec s "WARNING") as [->|_]; [done|].
  by destruct (String.eqb_spec s "ERROR") as [->|_].
Qed.

(** The four status counters never add up to more than the total, and they
    add up to the total exactly when every result has one of the statuses
    PASS, FAIL, WARNING, ERROR; a status outside these four, whatever its
    spelling, is in the total only. *)
Theorem status_counters_bounded (self : SecurityComplianceScanner)
    (R : list ComplianceResult.t) :
  passed (summarize self R) + failed (summarize self R)
  + warnings (summarize self R) + errors (summarize self R)
  ≤ total_checks (summarize self R)
  ∧ (passed (summarize self R) + failed (summarize self R)
     + warnings (summarize self R) + errors (summarize self R)
     = total_checks (summarize self R)
     ↔ Forall (λ r, counted_status (ComplianceResult.status r) = true) R).
Proof.
  simpl.
  assert (Hsum :
    sum_1_for (status_is "PASS") R + sum_1_for (status_is "FAIL") R
    + sum_1_for (status_is "WARNING") R + sum_1_for (status_is "ERROR") R
    = sum_1_for (λ r, counted_status (ComplianceResult.status r)) R).
  { induction R as [|r R IH]; [done|].
    rewrite !sum_1_for_cons, <- IH, <- counted_status_indicator. lia. }
  rewrite Hsum. split; [apply sum_1_for_le|apply sum_1_for_all].
Qed.

Lemma sum_1_for_mono {A : Type} (cond cond' : A → bool) (xs : list A) :
  (∀ x, cond x = true → cond' x = true) →
  sum_1_for cond xs ≤ sum_1_for cond' xs.
Proof.
  intros Himp. induction xs as [|x xs IH]; [done|].
  rewrite !sum_1_for_cons. specialize (Himp x).
  destruct (cond x), (cond' x); try lia; by specialize (Himp eq_refl).
Qed.

Lemma sum_1_for_mono_eq {A : Type} (cond cond' : A → bool) (xs : list A) :
  (∀ x, cond x = true → cond' x = true) →
  sum_1_for cond xs = sum_1_for cond' xs
  ↔ Forall (λ x, cond' x = true → cond x = true) xs.
Proof.
  intros Himp. induction xs as [|x xs IH]; [by split|].
  rewrite !sum_1_for_cons, Forall_cons.
  pose proof (sum_1_for_mono cond cond' xs Himp) as Hle.
  specialize (Himp x).
  destruct (cond x), (cond' x); split.
  - intros H. split; [done|]. apply IH. lia.
  - intros [_ H]. apply IH in H. lia.
  - by specialize (Himp eq_refl).
  - by specialize (Himp eq_refl).
  - intros H. lia.
  - intros [H _]. by specialize (H eq_refl).
  - intros H. split; [done|]. apply IH. lia.
  - intros [_ H]. apply IH in H. lia.
Qed.

Lemma failed_buckets_indicator (self : SecurityComplianceScanner)
    (r : ComplianceResult.t) :
  (if severity_is self "CRITICAL" r && status_is "FAIL" r then 1 else 0)
  + (if severity_is self "HIGH" r && status_is "FAIL" r then 1 else 0)
  + (if severity_is self "MEDIUM" r && status_is "FAIL" r then 1 else 0)
  + (if severity_is self "LOW" r && status_is "FAIL" r then 1 else 0)
  = if known_severity (_get_rule_severity self (ComplianceResult.rule_id r))
       && status_is "FAIL" r
    then 1 else 0.
Proof.
  pose proof (severity_buckets_indicator self r) as H.
  destruct (status_is "FAIL" r); rewrite ?andb_true_r, ?andb_false_r;
    [exact H|done].
Qed.

(** In every severity bucket the failed count is at most the bucket's
    total; the four failed counts together are at most the global failed
    counter, and they reach it exactly when every FAIL result belongs to a
    rule that is found with one of the four severities. *)
Theorem severity_failed_bounded (self : SecurityComplianceScanner)
    (R : list ComplianceResult.t) :
  (∀ sev, sev_failed (severity_count self sev R)
          ≤ total (severity_count self sev R))
  ∧ severity_failed_totals (by_severity (summarize self R))
    ≤ failed (summarize self R)
  ∧ (severity_failed_totals (by_severity (summarize self R))
     = failed (summarize self R)
     ↔ Forall (λ r, ComplianceResult.status r = "FAIL" →
                    resolves_to_known_severity self r) R).
Proof.
  split.
  { intros sev. simpl. apply sum_1_for_mono. intros r.
    by intros [? _]%andb_true_iff. }
  assert (Hsum :
    severity_failed_totals (by_severity (summarize self R))
    = sum_1_for
        (λ r, known_severity
                (_get_rule_severity self (ComplianceResult.rule_id r))
              && status_is "FAIL" r) R).
  { unfold severity_failed_totals. simpl.
    induction R as [|r R IH]; [done|].
    rewrite !sum_1_for_cons, <- IH, <- failed_buckets_indicator. lia. }
  rewrite Hsum. simpl. split.
  { apply sum_1_for_mono. intros r. by intros [_ ?]%andb_true_iff. }
  rewrite sum_1_for_mono_eq
    by (intros r; by intros [_ ?]%andb_true_iff).
  apply Forall_iff. intros r. unfold status_is.
  rewrite <- known_severity_resolves.
  destruct (String.eqb_spec (ComplianceResult.status r) "FAIL") as [Hf|Hf].
  - rewrite andb_true_r. split; intros H; by intros; apply H.
  - split; [by intros _ ?|by intros _ [=]].
Qed.

(** ** Looking rules up *)

(** The first rule with an id is the one both lookups find: whatever comes
    after it in the catalog, a later rule with the same id included, is
    never reached. *)
Theorem first_rule_with_id_is_found (self : SecurityComplianceScanner)
    (before after : list ComplianceRule.t) (rule : ComplianceRule.t) :
  rules self = before ++ rule :: after →
  ¬ In (ComplianceRule.id rule) (map ComplianceRule.id before) →
  next_rule self (ComplianceRule.id rule) = Some rule
  ∧ _get_rule_severity self (ComplianceRule.id rule)
    = ComplianceRule.severity rule.
Proof.
  intros Hrules Hfresh.
  assert (Hnext : next_rule self (ComplianceRule.id rule) = Some rule).
  { unfold next_rule. rewrite Hrules. clear Hrules.
    induction before as [|rule' before IH]; simpl.
    - by rewrite String.eqb_refl.
    - simpl in Hfresh.
      destruct (String.eqb_spec (ComplianceRule.id rule')
                                (ComplianceRule.id rule)) as [E|_];
        [|apply IH]; tauto. }
  split; [done|]. by rewrite get_rule_severity_next_rule, Hnext.
Qed.

Lemma unique_id_found (self : SecurityComplianceScanner)
    (rule : ComplianceRule.t) :
  NoDup (map ComplianceRule.id (rules self)) →
  In rule (rules self) →
  next_rule self (ComplianceRule.id rule) = Some rule.
Proof.
  unfold next_rule. induction (rules self) as [|rule' rest IH]; simpl;
    intros Hnd Hin; [done|].
  apply NoDup_cons in Hnd as [Hfresh Hnd].
  destruct (String.eqb_spec (ComplianceRule.id rule')
                            (ComplianceRule.id rule)) as [E|E].
  - destruct Hin as [->|Hin]; [done|]. exfalso. apply Hfresh.
    rewrite E. apply list_elem_of_In, in_map, Hin.
  - destruct Hin as [->|Hin]; [done|]. by apply IH.
Qed.

(** The severity shown in a report row is the severity that the summary
    uses exactly when the result's rule id is in the catalog: for an id that
    is not there the row says Unknown and the summary works with UNKNOWN. *)
Theorem row_severity_agrees_iff_resolved (self : SecurityComplianceScanner)
    (result : ComplianceResult.t) :
  Severity (report_row self result)
  = _get_rule_severity self (ComplianceResult.rule_id result)
  ↔ In (ComplianceResult.rule_id result)
       (map ComplianceRule.id (rules self)).
Proof.
  rewrite get_rule_severity_next_rule. unfold report_row.
  destruct (next_rule self (ComplianceResult.rule_id result))
    as [rule|] eqn:Hnext; simpl.
  - split; [intros _|done].
    apply next_rule_Some in Hnext as [Hin <-]. by apply in_map.
  - apply next_rule_None in Hnext. split; [done|]. by intros ?.
Qed.

(** When every rule of the catalog has one of the four severities and every
    result names a rule of the catalog, the per-severity totals add up to
    the total, and every report row is joined with a rule of the catalog
    that has the result's rule id. *)
Theorem catalog_results_fully_bucketed (self : SecurityComplianceScanner)
    (R : list ComplianceResult.t) :
  Forall (λ rule, known_severity (ComplianceRule.severity rule) = true)
         (rules self) →
  Forall (λ r, In (ComplianceResult.rule_id r)
                  (map ComplianceRule.id (rules self))) R →
  severity_totals (by_severity (summarize self R))
    = total_checks (summarize self R)
  ∧ Forall (λ r, ∃ rule, In rule (rules self)
                         ∧ ComplianceRule.id rule = ComplianceResult.rule_id r
                         ∧ report_row self r = joined_row rule r) R.
Proof.
  intros Hknown Hin.
  assert (Hfound : Forall (λ r, ∃ rule,
                     next_rule self (ComplianceResult.rule_id r) = Some rule
                     ∧ In rule (rules self)
                     ∧ ComplianceRule.id rule = ComplianceResult.rule_id r) R).
  { eapply Forall_impl; [exact Hin|]. intros r Hr. simpl in Hr.
    destruct (next_rule self (ComplianceResult.rule_id r)) as [rule|]
      eqn:Hnext.
    - exists rule. split; [done|]. by apply next_rule_Some.
    - by apply next_rule_None in Hnext. }
  split.
  - rewrite severity_totals_count. simpl. apply sum_1_for_all.
    eapply Forall_impl; [exact Hfound|]. intros r (rule & Hnext & Hr & _).
    simpl. apply known_severity_resolves. exists rule. split; [done|].
    rewrite Forall_forall in Hknown. by apply Hknown, list_elem_of_In.
  - eapply Forall_impl; [exact Hfound|].
    intros r (rule & Hnext & Hr & Hid). exists rule.
    repeat split; [done..|]. unfold report_row. by rewrite Hnext.
Qed.

(** ** Scanning again, scanning nothing *)

(** With an empty catalog the scan stores and reports no result, every
    counter is zero, nothing is logged, and the two exports that follow
    write no file. *)
Theorem empty_catalog_scan {W : Type}
    (checks : string → option (Check W))
    (to_csv : list ReportRow → string)
    (html_report :
       SecurityComplianceScanner → list ReportRow → string → Env W →
       SecurityComplianceScanner * Env W)
    (self : SecurityComplianceScanner) (env : Env W)
    (csv_name html_name : string) :
  rules self = [] →
  let scanned := (scan_all checks self env).1.1 in
  let report := (scan_all checks self env).2 in
  results scanned = []
  ∧ Report.results report = []
  ∧ Report.summary report = summarize self []
  ∧ (total_checks (Report.summary report), passed (Report.summary report),
     failed (Report.summary report), warnings (Report.summary report),
     errors (Report.summary report)) = (0, 0, 0, 0, 0)
  ∧ severity_totals (by_severity (Report.summary report)) = 0
  ∧ (scan_all checks self env).1.2 = env
  ∧ fs (export_results_csv to_csv scanned csv_name env).2 = fs env
  ∧ fs (export_results_html html_report scanned html_name
          (export_results_csv to_csv scanned csv_name env).2).2 = fs env.
Proof.
  intros Hrules scanned report. subst scanned report.
  unfold scan_all, scan_loop. rewrite Hrules. simpl. by repeat split.
Qed.

Lemma run_all_errors {W : Type} (checks : string → option (Check W))
    (catalog : list ComplianceRule.t) (w : W) :
  length (unresolved_rules checks catalog)
  ≤ sum_1_for (status_is "ERROR") (run_all checks catalog w).
Proof.
  revert w. induction catalog as [|rule rest IH]; intros w; simpl; [done|].
  unfold run_rule.
  destruct (checks (ComplianceRule.check_function rule)) as [check_func|].
  - destruct (check_func w) as [[check_results|partial e] w'];
      rewrite sum_1_for_app; specialize (IH w'); lia.
  - rewrite sum_1_for_app, sum_1_for_cons. simpl. specialize (IH w). lia.
Qed.

(** Every rule whose check name resolves to nothing shows in the counters:
    the errors reported by a scan are at least as many as these rules, and
    so is the total. *)
Theorem unresolved_rules_counted_as_errors {W : Type}
    (checks : string → option (Check W))
    (self : SecurityComplianceScanner) (env : Env W) :
  length (unresolved_rules checks (rules self))
  ≤ errors (Report.summary (scan_all checks self env).2)
  ∧ errors (Report.summary (scan_all checks self env).2)
    ≤ total_checks (Report.summary (scan_all checks self env).2).
Proof.
  destruct (scan_all_spec checks self env) as (_ & -> & _). simpl.
  split; [apply run_all_errors|apply sum_1_for_le].
Qed.

(** ** The exporters after a scan *)

(** The five numbers that the HTML page shows in its summary are the five
    counters of the report that the scan returned, as long as the export
    works on the scanner that the scan left. *)
Theorem html_summary_agrees_with_report {W : Type}
    (checks : string → option (Check W))
    (self : SecurityComplianceScanner) (env : Env W) :
  html_summary_counts (scan_all checks self env).1.1
  = (total_checks (Report.summary (scan_all checks self env).2),
     passed (Report.summary (scan_all checks self env).2),
     failed (Report.summary (scan_all checks self env).2),
     warnings (Report.summary (scan_all checks self env).2),
     errors (Report.summary (scan_all checks self env).2)).
Proof.
  by destruct (scan_all_spec checks self env) as (-> & -> & _).
Qed.

(** * The checks *)

(** ** [check_root_mfa] *)

(** The root MFA check never raises and always gives exactly one result, for
    rule SEC-IAM-001 and resource root, without changing the account. The
    result is PASS exactly when the summary has [AccountMFAEnabled] equal
    to 1 (a summary without that entry counts as 0 and fails), and it is
    ERROR, with the text of the exception in the details, exactly when the
    call of the client raised. *)
Theorem check_root_mfa_one_result (env : Env Aws) :
  ∃ r : ComplianceResult.t,
    (check_root_mfa env).1 = Returns [r]
    ∧ ComplianceResult.rule_id r = "SEC-IAM-001"
    ∧ ComplianceResult.resource_id r = "root"
    ∧ world (check_root_mfa env).2 = world env
    ∧ fs (check_root_mfa env).2 = fs env
    ∧ (ComplianceResult.status r = "PASS"
       ↔ ∃ SummaryMap, get_account_summary (world env) = inr SummaryMap
                       ∧ SummaryMap !! "AccountMFAEnabled" = Some 1%Z)
    ∧ (ComplianceResult.status r = "FAIL"
       ↔ ∃ SummaryMap, get_account_summary (world env) = inr SummaryMap
                       ∧ SummaryMap !! "AccountMFAEnabled" ≠ Some 1%Z)
    ∧ (∀ e, get_account_summary (world env) = inl e →
            r = error_checking "SEC-IAM-001" "root" e)
    ∧ (ComplianceResult.status r = "ERROR"
       ↔ ∃ e, get_account_summary (world env) = inl e).
Proof.
  unfold check_root_mfa.
  destruct (get_account_summary (world env)) as [e|SummaryMap].
  - eexists. repeat split; simpl; try done.
    + by intros (? & [=] & _).
    + by intros (? & [=] & _).
    + by intros ? [= <-].
    + by exists e.
  - destruct (SummaryMap !! "AccountMFAEnabled") as [v|] eqn:Hv; simpl.
    + destruct (Z.eqb_spec v 1) as [->|Hne];
        eexists; repeat split; simpl; try done.
      * intros _. by exists SummaryMap.
      * intros (m & [= <-] & Hm). rewrite Hv in Hm. done.
      * by intros (? & [=]).
      * intros (m & [= <-] & Hm). rewrite Hv in Hm. by injection Hm.
      * intros _. exists SummaryMap. split; [done|]. rewrite Hv. congruence.
      * by intros (? & [=]).
    + eexists. repeat split; simpl; try done.
      * intros (m & [= <-] & Hm). rewrite Hv in Hm. done.
      * intros _. exists SummaryMap. split; [done|]. by rewrite Hv.
      * by intros (? & [=]).
Qed.

(** ** [check_access_key_rotation] *)

(** A key fails exactly when 91 whole days or more lie between its creation
    and the reading of the clock; a key in its 91st day, 90 days and some
    hours old, passes, and so does a key dated after the reading. *)
Theorem access_key_fails_from_day_91 (username : string) (key : AccessKey)
    (now : Z) :
  (ComplianceResult.status (access_key_result username key now) = "FAIL"
   ↔ (91 * 86400000000 ≤ now - CreateDate key)%Z)
  ∧ (ComplianceResult.status (access_key_result username key now) = "PASS"
     ↔ (now - CreateDate key < 91 * 86400000000)%Z)
  ∧ ComplianceResult.resource_id (access_key_result username key now)
    = username +:+ "/" +:+ AccessKeyId key.
Proof.
  unfold access_key_result, age_in_days.
  assert (Hdiv : (90 < (now - CreateDate key) `div` 86400000000
                  ↔ 91 * 86400000000 ≤ now - CreateDate key)%Z).
  { split; intros H.
    - pose proof (Z.mul_div_le (now - CreateDate key) 86400000000) as Hm.
      lia.
    - assert (91 ≤ (now - CreateDate key) `div` 86400000000)%Z
        by (apply Z.div_le_lower_bound; lia).
      lia. }
  destruct (Z.ltb_spec 90 ((now - CreateDate key) `div` 86400000000))
    as [Hlt|Hge]; simpl; repeat split; try done; lia.
Qed.

Lemma advance_advance (m n : nat) (w : Aws) :
  advance m (advance n w) = advance (m + n) w.
Proof. unfold advance. simpl. f_equal. lia. Qed.

Lemma advance_0 (w : Aws) : advance 0 w = w.
Proof. by destruct w. Qed.

Lemma access_keys_loop_spec (username : string) (keys : list AccessKey)
    (acc : list ComplianceResult.t) (w : Aws) :
  ∃ new,
    access_keys_loop username keys acc w
      = (acc ++ new, advance (length keys) w)
    ∧ map ComplianceResult.resource_id new
      = map (λ key, username +:+ "/" +:+ AccessKeyId key) keys
    ∧ Forall (λ r, ComplianceResult.rule_id r = "SEC-IAM-002"
                   ∧ (ComplianceResult.status r = "PASS"
                      ∨ ComplianceResult.status r = "FAIL")) new.
Proof.
  revert acc w. induction keys as [|key rest IH]; intros acc w.
  - exists []. simpl. by rewrite app_nil_r, advance_0.
  - cbn [access_keys_loop]. change (datetime_now w)
      with (clock w (readings w), advance 1 w).
    destruct (IH (acc ++ [access_key_result username key
                            (clock w (readings w))]) (advance 1 w))
      as (new & -> & Hres & Hok).
    exists (access_key_result username key (clock w (readings w)) :: new).
    rewrite advance_advance, <- app_assoc. simpl.
    replace (length rest + 1) with (S (length rest)) by lia.
    split; [done|]. split.
    + f_equal; [|done]. unfold access_key_result.
      by destruct (90 <? _)%Z.
    + constructor; [|done]. unfold access_key_result.
      destruct (90 <? _)%Z; simpl; auto.
Qed.

Lemma users_loop_ok (w : Aws) (users : list User)
    (acc : list ComplianceResult.t) (n : nat) :
  Forall (λ user, ∃ keys, list_access_keys w (UserName user) = inr keys)
         users →
  ∃ new,
    users_loop users acc (advance n w)
      = (inr (acc ++ new), advance (length new + n) w)
    ∧ map ComplianceResult.resource_id new = key_resources w users
    ∧ Forall (λ r, ComplianceResult.rule_id r = "SEC-IAM-002"
                   ∧ (ComplianceResult.status r = "PASS"
                      ∨ ComplianceResult.status r = "FAIL")) new.
Proof.
  intros Hok. revert acc n.
  induction Hok as [|user rest (keys & Hkeys) _ IH]; intros acc n.
  - exists []. simpl. by rewrite app_nil_r.
  - cbn [users_loop key_resources flat_map].
    change (list_access_keys (advance n w)) with (list_access_keys w).
    rewrite Hkeys.
    destruct (access_keys_loop_spec (UserName user) keys acc (advance n w))
      as (new1 & -> & Hres1 & Hok1).
    rewrite advance_advance.
    destruct (IH (acc ++ new1) (length keys + n))
      as (new2 & -> & Hres2 & Hok2).
    assert (Hlen : length new1 = length keys)
      by (by rewrite <- (length_map ComplianceResult.resource_id), Hres1,
                     length_map).
    exists (new1 ++ new2). split; [|split].
    + rewrite <- app_assoc, length_app, Hlen. do 2 f_equal. lia.
    + rewrite map_app, Hres1. f_equal. exact Hres2.
    + by apply Forall_app.
Qed.

Lemma users_loop_fail (w : Aws) (users : list User)
    (acc : list ComplianceResult.t) (n : nat) :
  Exists (λ user, ∃ e, list_access_keys w (UserName user) = inl e) users →
  ∃ e user k,
    In user users
    ∧ list_access_keys w (UserName user) = inl e
    ∧ users_loop users acc (advance n w) = (inl e, advance k w).
Proof.
  revert acc n. induction users as [|user rest IH]; intros acc n Hex.
  - by apply Exists_nil in Hex.
  - cbn [users_loop].
    change (list_access_keys (advance n w)) with (list_access_keys w).
    destruct (list_access_keys w (UserName user)) as [e|keys] eqn:Hkeys.
    + exists e, user, n. split; [by left|done].
    + apply Exists_cons in Hex as [(e & He)|Hex]; [congruence|].
      destruct (access_keys_loop_spec (UserName user) keys acc
                  (advance n w)) as (new1 & -> & _ & _).
      rewrite advance_advance.
      destruct (IH (acc ++ new1) (length keys + n) Hex)
        as (e & user' & k & Hin & He & ->).
      exists e, user', k. split; [by right|done].
Qed.

(** When the users and the keys of every user can be listed, the key check
    returns one result per key, user by user and key by key: the resource
    ids are the [user/key] pairs in that order, every result is a PASS or a
    FAIL of rule SEC-IAM-002, and the clock was read once per key. *)
Theorem check_access_key_rotation_one_result_per_key (env : Env Aws)
    (users : list User) :
  list_users (world env) = inr users →
  Forall (λ user, ∃ keys,
            list_access_keys (world env) (UserName user) = inr keys)
         users →
  ∃ check_results,
    check_access_key_rotation env
      = (Returns check_results,
         set_world (advance (length check_results) (world env)) env)
    ∧ map ComplianceResult.resource_id check_results
      = key_resources (world env) users
    ∧ length check_results = length (key_resources (world env) users)
    ∧ Forall (λ r, ComplianceResult.rule_id r = "SEC-IAM-002"
                   ∧ (ComplianceResult.status r = "PASS"
                      ∨ ComplianceResult.status r = "FAIL")) check_results.
Proof.
  intros Husers Hkeys. unfold check_access_key_rotation. rewrite Husers.
  destruct (users_loop_ok (world env) users [] 0 Hkeys)
    as (new & Hloop & Hres & Hok).
  rewrite advance_0 in Hloop. rewrite Hloop. simpl.
  exists new. rewrite Nat.add_0_r. repeat split; [done| |done].
  by rewrite <- Hres, length_map.
Qed.

(** When the list of users cannot be had, or the keys of some user cannot
    be listed, the key check does not raise: it returns a single ERROR
    result for the resource [iam_keys] with the text of the exception, and
    the results already computed for the keys of earlier users are not
    returned. *)
Theorem check_access_key_rotation_failure_is_one_error (env : Env Aws) :
  (∀ e, list_users (world env) = inl e →
        (check_access_key_rotation env).1
        = Returns [error_checking "SEC-IAM-002" "iam_keys" e])
  ∧ (∀ users,
       list_users (world env) = inr users →
       Exists (λ user, ∃ e,
                 list_access_keys (world env) (UserName user) = inl e)
              users →
       ∃ e user,
         In user users
         ∧ list_access_keys (world env) (UserName user) = inl e
         ∧ (check_access_key_rotation env).1
           = Returns [error_checking "SEC-IAM-002" "iam_keys" e]).
Proof.
  unfold check_access_key_rotation. split.
  - intros e ->. done.
  - intros users -> Hex.
    destruct (users_loop_fail (world env) users [] 0 Hex)
      as (e & user & k & Hin & He & Hloop).
    rewrite advance_0 in Hloop. rewrite Hloop.
    exists e, user. done.
Qed.

(** ** [check_default_security_groups] *)

Lemma vpcs_loop_ok (w : Aws) (vpcs : list Vpc)
    (acc : list ComplianceResult.t) :
  Forall (λ vpc, ∃ groups,
            describe_security_groups w (VpcId vpc) = inr groups) vpcs →
  vpcs_loop vpcs acc w = inr (acc ++ flat_map (vpc_results w) vpcs).
Proof.
  intros Hok. revert acc.
  induction Hok as [|vpc rest (groups & Hg) _ IH]; intros acc; simpl.
  - by rewrite app_nil_r.
  - unfold vpc_results at 1. rewrite Hg.
    destruct groups as [|sg groups]; [apply IH|].
    rewrite IH, <- !app_assoc. done.
Qed.

Lemma vpcs_loop_fail (w : Aws) (vpcs : list Vpc)
    (acc : list ComplianceResult.t) :
  Exists (λ vpc, ∃ e, describe_security_groups w (VpcId vpc) = inl e)
         vpcs →
  ∃ e vpc,
    In vpc vpcs
    ∧ describe_security_groups w (VpcId vpc) = inl e
    ∧ vpcs_loop vpcs acc w = inl e.
Proof.
  revert acc. induction vpcs as [|vpc rest IH]; intros acc Hex.
  - by apply Exists_nil in Hex.
  - simpl.
    destruct (describe_security_groups w (VpcId vpc)) as [e|groups] eqn:Hg.
    + exists e, vpc. split; [by left|done].
    + apply Exists_cons in Hex as [(e & He)|Hex]; [congruence|].
      destruct groups as [|sg groups].
      * destruct (IH acc Hex) as (e & vpc' & Hin & He & ->).
        exists e, vpc'. split; [by right|done].
      * destruct (IH ((acc ++ [inbound_result (VpcId vpc) sg])
                        ++ [outbound_result (VpcId vpc) sg]) Hex)
          as (e & vpc' & Hin & He & ->).
        exists e, vpc'. split; [by right|done].
Qed.

Lemma vpc_results_length (w : Aws) (vpcs : list Vpc) :
  length (flat_map (vpc_results w) vpcs)
  = 2 * sum_1_for (has_default_group w) vpcs.
Proof.
  induction vpcs as [|vpc rest IH]; [done|].
  simpl. rewrite length_app, IH, sum_1_for_cons.
  unfold vpc_results, has_default_group.
  destruct (describe_security_groups w (VpcId vpc)) as [e|[|sg groups]];
    simpl; lia.
Qed.

(** When the VPCs and their default security groups can be described, the
    security group check returns, VPC by VPC, nothing for a VPC without a
    default group and otherwise two results for its first group, the
    inbound one and then the outbound one: twice as many results as there
    are VPCs with a default group, all of rule SEC-VPC-001, and the account
    and the log are left as they were. *)
Theorem check_default_security_groups_two_per_group (env : Env Aws)
    (vpcs : list Vpc) :
  describe_vpcs (world env) = inr vpcs →
  Forall (λ vpc, ∃ groups,
            describe_security_groups (world env) (VpcId vpc) = inr groups)
         vpcs →
  check_default_security_groups env
    = (Returns (flat_map (vpc_results (world env)) vpcs), env)
  ∧ length (flat_map (vpc_results (world env)) vpcs)
    = 2 * sum_1_for (has_default_group (world env)) vpcs
  ∧ Forall (λ r, ComplianceResult.rule_id r = "SEC-VPC-001"
                 ∧ (ComplianceResult.status r = "PASS"
                    ∨ ComplianceResult.status r = "FAIL"))
           (flat_map (vpc_results (world env)) vpcs).
Proof.
  intros Hvpcs Hok. unfold check_default_security_groups.
  rewrite Hvpcs, (vpcs_loop_ok _ _ _ Hok). simpl.
  split; [done|]. split; [apply vpc_results_length|].
  apply Forall_flat_map, Forall_forall. intros vpc _.
  unfold vpc_results.
  destruct (describe_security_groups (world env) (VpcId vpc))
    as [e|[|sg groups]]; [done..|].
  unfold inbound_result, outbound_result.
  destruct (IpPermissions sg), (IpPermissionsEgress sg);
    repeat (apply Forall_cons; split); try apply Forall_nil; simpl; auto.
Qed.

(** When the VPCs cannot be described, or the groups of some VPC cannot,
    the security group check does not raise: it returns a single ERROR
    result for the resource [security_groups] with the text of the
    exception, and the results of the VPCs judged before are not
    returned. *)
Theorem check_default_security_groups_failure_is_one_error
    (env : Env Aws) :
  (∀ e, describe_vpcs (world env) = inl e →
        (check_default_security_groups env).1
        = Returns [error_checking "SEC-VPC-001" "security_groups" e])
  ∧ (∀ vpcs,
       describe_vpcs (world env) = inr vpcs →
       Exists (λ vpc, ∃ e,
                 describe_security_groups (world env) (VpcId vpc) = inl e)
              vpcs →
       ∃ e vpc,
         In vpc vpcs
         ∧ describe_security_groups (world env) (VpcId vpc) = inl e
         ∧ (check_default_security_groups env).1
           = Returns [error_checking "SEC-VPC-001" "security_groups" e]).
Proof.
  unfold check_default_security_groups. split.
  - intros e ->. done.
  - intros vpcs -> Hex.
    destruct (vpcs_loop_fail (world env) vpcs [] Hex)
      as (e & vpc & Hin & He & ->).
    exists e, vpc. done.
Qed.

(** ** The checks inside a scan *)

Lemma users_loop_cases (w : Aws) (users : list User)
    (acc : list ComplianceResult.t) (n : nat) :
  ∃ k, (∃ e, users_loop users acc (advance n w) = (inl e, advance k w))
       ∨ (∃ new,
            users_loop users acc (advance n w)
              = (inr (acc ++ new), advance k w)
            ∧ Forall (λ r, ComplianceResult.rule_id r = "SEC-IAM-002") new).
Proof.
  revert acc n. induction users as [|user rest IH]; intros acc n.
  - exists n. right. exists []. by rewrite app_nil_r.
  - cbn [users_loop].
    change (list_access_keys (advance n w)) with (list_access_keys w).
    destruct (list_access_keys w (UserName user)) as [e|keys].
    + exists n. left. by exists e.
    + destruct (access_keys_loop_spec (UserName user) keys acc
                  (advance n w)) as (new1 & -> & _ & Hok1).
      rewrite advance_advance.
      destruct (IH (acc ++ new1) (length keys + n))
        as (k & [(e & ->)|(new2 & -> & Hok2)]); exists k.
      * left. by exists e.
      * right. exists (new1 ++ new2). rewrite <- app_assoc.
        split; [done|]. apply Forall_app. split; [|done].
        eapply Forall_impl; [exact Hok1|]. by intros r [? _].
Qed.

Lemma vpcs_loop_cases (w : Aws) (vpcs : list Vpc)
    (acc : list ComplianceResult.t) :
  (∃ e, vpcs_loop vpcs acc w = inl e)
  ∨ (∃ new,
       vpcs_loop vpcs acc w = inr (acc ++ new)
       ∧ Forall (λ r, ComplianceResult.rule_id r = "SEC-VPC-001") new).
Proof.
  revert acc. induction vpcs as [|vpc rest IH]; intros acc; simpl.
  - right. exists []. by rewrite app_nil_r.
  - destruct (describe_security_groups w (VpcId vpc)) as [e|[|sg groups]].
    + left. by exists e.
    + apply IH.
    + destruct (IH ((acc ++ [inbound_result (VpcId vpc) sg])
                      ++ [outbound_result (VpcId vpc) sg]))
        as [(e & ->)|(new & -> & Hok)]; [left; by exists e|].
      right.
      exists (inbound_result (VpcId vpc) sg
                :: outbound_result (VpcId vpc) sg :: new).
      rewrite <- !app_assoc. split; [done|].
      repeat (apply Forall_cons; split); [| |done].
      * unfold inbound_result. by destruct (IpPermissions sg).
      * unfold outbound_result. by destruct (negb _).
Qed.

(** A rule whose check name is bound to one of the three checks of the
    class never gets the scan's own error result: what the rule contributes
    is what the check returned, under the rule id written in the check
    (SEC-IAM-001, SEC-IAM-002, SEC-VPC-001), whatever the id of the rule
    that named it. The root check contributes exactly one result; the
    account is left as it was, but for the readings of the clock. *)
Theorem class_checks_report_under_their_own_id
    (checks : string → option (Check Aws)) (rule : ComplianceRule.t)
    (w : Aws) :
  (checks (ComplianceRule.check_function rule)
     = Some (bound_method check_root_mfa) →
   ∃ r, run_rule checks rule w = ([r], w)
        ∧ ComplianceResult.rule_id r = "SEC-IAM-001")
  ∧ (checks (ComplianceRule.check_function rule)
       = Some (bound_method check_access_key_rotation) →
     ∃ k, (run_rule checks rule w).2 = advance k w
          ∧ Forall (λ r, ComplianceResult.rule_id r = "SEC-IAM-002")
                   (run_rule checks rule w).1)
  ∧ (checks (ComplianceRule.check_function rule)
       = Some (bound_method check_default_security_groups) →
     (run_rule checks rule w).2 = w
     ∧ Forall (λ r, ComplianceResult.rule_id r = "SEC-VPC-001")
              (run_rule checks rule w).1).
Proof.
  unfold run_rule, bound_method. split; [|split]; intros ->.
  - unfold check_root_mfa. simpl.
    destruct (get_account_summary w) as [e|SummaryMap]; simpl.
    + by eexists.
    + destruct (Z.eqb _ _); by eexists.
  - unfold check_access_key_rotation. simpl.
    destruct (list_users w) as [e|users]; simpl.
    + exists 0. rewrite advance_0. split; [done|].
      by repeat constructor.
    + destruct (users_loop_cases w users [] 0)
        as (k & [(e & Hloop)|(new & Hloop & Hok)]);
        rewrite advance_0 in Hloop; rewrite Hloop; simpl; exists k.
      * split; [done|]. by repeat constructor.
      * done.
  - unfold check_default_security_groups. simpl.
    destruct (describe_vpcs w) as [e|vpcs]; simpl.
    + split; [done|]. by repeat constructor.
    + destruct (vpcs_loop_cases w vpcs [])
        as [(e & ->)|(new & -> & Hok)]; simpl.
      * split; [done|]. by repeat constructor.
      * done.
Qed.

(** ** The further properties at the sample inputs *)

(** The three checks on the sample account, as one scan of the first three
    default rules: one PASS for the root account, the three keys, and the
    two sides of the one default group. *)
Example class_checks_scan :
  map (λ r, (ComplianceResult.status r, ComplianceResult.resource_id r))
      (results (scan_all sample_class_checks three_rule_scanner
                  (aws_env sample_aws)).1.1)
  = [("PASS", "root"); ("PASS", "alice/AKIA1"); ("FAIL", "alice/AKIA2");
     ("PASS", "bob/AKIA3"); ("FAIL", "sg-1"); ("PASS", "sg-1")].
Proof. reflexivity. Qed.

Lemma first_rule_with_id_witness :
  next_rule repeated_id_scanner "SEC-IAM-001"
    = Some (ComplianceRule.mk "SEC-IAM-001" "IAM Root Account MFA"
              "Checks if the root account has MFA enabled"
              "CRITICAL" "SECURITY" "IAM" "check_root_mfa")
  ∧ _get_rule_severity repeated_id_scanner "SEC-IAM-001" = "CRITICAL".
Proof.
  apply (first_rule_with_id_is_found repeated_id_scanner []
           (drop 1 default_rules ++ [repeated_id_rule])
           (ComplianceRule.mk "SEC-IAM-001" "IAM Root Account MFA"
              "Checks if the root account has MFA enabled"
              "CRITICAL" "SECURITY" "IAM" "check_root_mfa")).
  - reflexivity.
  - simpl. tauto.
Defined.

Lemma default_rules_ids_NoDup : NoDup (map ComplianceRule.id default_rules).
Proof. apply (bool_decide_unpack _). by vm_compute. Defined.

Lemma catalog_results_fully_bucketed_witness :
  severity_totals
    (by_severity (summarize fresh_scanner [not_applicable_result]))
  = total_checks (summarize fresh_scanner [not_applicable_result]).
Proof.
  destruct (catalog_results_fully_bucketed fresh_scanner
              [not_applicable_result]) as [Htotals _].
  - change (rules fresh_scanner) with default_rules. unfold default_rules.
    repeat (apply Forall_cons; split; [reflexivity|]). constructor.
  - apply Forall_cons. split; [simpl; tauto|constructor].
  - exact Htotals.
Defined.

Lemma empty_catalog_witness :
  rules empty_scanner = []
  ∧ results (scan_all sample_checks empty_scanner sample_env).1.1 = []
  ∧ fs (export_results_csv sample_to_csv
          (scan_all sample_checks empty_scanner sample_env).1.1
          "report.csv" sample_env).2 = ∅.
Proof.
  split; [reflexivity|].
  destruct (empty_catalog_scan sample_checks sample_to_csv
              sample_html_report empty_scanner sample_env
              "report.csv" "report.html")
    as (Hres & _ & _ & _ & _ & _ & Hcsv & _); [reflexivity|].
  split; [exact Hres|exact Hcsv].
Defined.

Lemma check_root_mfa_witness :
  ∃ r, (check_root_mfa (aws_env denied_aws)).1 = Returns [r]
       ∧ r = error_checking "SEC-IAM-001" "root" "AccessDenied".
Proof.
  destruct (check_root_mfa_one_result (aws_env denied_aws))
    as (r & Hr & _ & _ & _ & _ & _ & _ & Herr & _).
  exists r. split; [exact Hr|]. apply Herr. reflexivity.
Defined.

Lemma check_access_key_rotation_witness :
  ∃ check_results,
    (check_access_key_rotation (aws_env sample_aws)).1
      = Returns check_results
    ∧ map ComplianceResult.resource_id check_results
      = ["alice/AKIA1"; "alice/AKIA2"; "bob/AKIA3"].
Proof.
  destruct (check_access_key_rotation_one_result_per_key
              (aws_env sample_aws)
              [ {| UserName := "alice" |}; {| UserName := "bob" |} ])
    as (check_results & Hcheck & Hres & _).
  - reflexivity.
  - repeat (apply Forall_cons; split; [eexists; reflexivity|]).
    constructor.
  - exists check_results. rewrite Hcheck. split; [reflexivity|exact Hres].
Defined.

Lemma check_access_key_rotation_failure_witness :
  ∃ e, (check_access_key_rotation (aws_env denied_aws)).1
       = Returns [error_checking "SEC-IAM-002" "iam_keys" e].
Proof.
  destruct (check_access_key_rotation_failure_is_one_error
              (aws_env denied_aws)) as (_ & Hfail).
  destruct (Hfail [ {| UserName := "alice" |}; {| UserName := "bob" |} ])
    as (e & _ & _ & _ & Hcheck).
  - reflexivity.
  - apply Exists_cons. right. apply Exists_cons. left.
    exists "AccessDenied". reflexivity.
  - exists e. exact Hcheck.
Defined.

Lemma check_default_security_groups_witness :
  check_default_security_groups (aws_env sample_aws)
  = (Returns (flat_map (vpc_results sample_aws)
                [ {| VpcId := "vpc-1" |}; {| VpcId := "vpc-2" |} ]),
     aws_env sample_aws)
  ∧ length (flat_map (vpc_results sample_aws)
              [ {| VpcId := "vpc-1" |}; {| VpcId := "vpc-2" |} ]) = 2.
Proof.
  destruct (check_default_security_groups_two_per_group
              (aws_env sample_aws)
              [ {| VpcId := "vpc-1" |}; {| VpcId := "vpc-2" |} ])
    as (Hcheck & Hlen & _).
  - reflexivity.
  - repeat (apply Forall_cons; split; [eexists; reflexivity|]).
    constructor.
  - split; [exact Hcheck|]. etransitivity; [exact Hlen|reflexivity].
Defined.

Lemma check_default_security_groups_failure_witness :
  ∃ e, (check_default_security_groups (aws_env denied_aws)).1
       = Returns [error_checking "SEC-VPC-001" "security_groups" e].
Proof.
  destruct (check_default_security_groups_failure_is_one_error
              (aws_env denied_aws)) as (_ & Hfail).
  destruct (Hfail [ {| VpcId := "vpc-1" |}; {| VpcId := "vpc-2" |} ])
    as (e & _ & _ & _ & Hcheck).
  - reflexivity.
  - apply Exists_cons. right. apply Exists_cons. left.
    exists "UnauthorizedOperation". reflexivity.
  - exists e. exact Hcheck.
Defined.

Lemma class_checks_witness :
  ∃ r, run_rule sample_class_checks
         (ComplianceRule.mk "CUSTOM-001" "Root MFA, in-house id"
            "The root check under another rule id"
            "HIGH" "SECURITY" "IAM" "check_root_mfa") sample_aws
       = ([r], sample_aws)
       ∧ ComplianceResult.rule_id r = "SEC-IAM-001".
Proof.
  destruct (class_checks_report_under_their_own_id sample_class_checks
              (ComplianceRule.mk "CUSTOM-001" "Root MFA, in-house id"
                 "The root check under another rule id"
                 "HIGH" "SECURITY" "IAM" "check_root_mfa") sample_aws)
    as (Hroot & _ & _).
  destruct Hroot as (r & Hrun & Hid); [reflexivity|].
  exists r. split; [exact Hrun|exact Hid].
Defined.

(** * The scan with the lookup on the scanner *)

Section ScanGetattr.
Context {W : Type}.
Variable getattr_ :
  SecurityComplianceScanner → string → option (Attribute W).
Implicit Types (rule : ComplianceRule.t) (catalog : list ComplianceRule.t).
Implicit Types (acc : list ComplianceResult.t) (env : Env W).
Implicit Types (self s : SecurityComplianceScanner).

(** Whatever of the scanner the methods named by the catalog keep, the
    loop keeps. *)
Lemma scan_fold_getattr_keeps {A : Type} (f : SecurityComplianceScanner → A)
    catalog acc s env :
  (∀ s rule call e,
     In rule catalog →
     getattr_ s (ComplianceRule.check_function rule)
       = Some (BoundMethod call) →
     f (call s e).1.2 = f s) →
  f (fold_left (scan_rule_getattr getattr_) catalog (acc, s, env)).1.2
  = f s.
Proof.
  revert acc s env.
  induction catalog as [|rule rest IH]; intros acc s env Hkeep; [done|].
  cbn [fold_left].
  assert (Hstep : f (scan_rule_getattr getattr_ (acc, s, env) rule).1.2
                  = f s).
  { unfold scan_rule_getattr.
    destruct (getattr_ s (ComplianceRule.check_function rule))
      as [[call|[|] type_name]|] eqn:Hget; [|done..].
    specialize (Hkeep s rule call
                  (logger LogInfo
                     ("Running check: " +:+ ComplianceRule.id rule
                        +:+ " - " +:+ ComplianceRule.title rule) env)
                  (or_introl eq_refl) Hget).
    by destruct (call s _) as [[[check_results|partial e] s'] env']. }
  destruct (scan_rule_getattr getattr_ (acc, s, env) rule)
    as [[acc' s'] env'].
  simpl in Hstep. rewrite IH, Hstep; [done|].
  intros s0 rule0 call e Hin. apply Hkeep. by right.
Qed.

Lemma scan_all_getattr_keeps {A : Type} (f : SecurityComplianceScanner → A)
    self env :
  (∀ s rule call e,
     In rule (rules self) →
     getattr_ s (ComplianceRule.check_function rule)
       = Some (BoundMethod call) →
     f (call s e).1.2 = f s) →
  ∃ all_results scanned,
    (scan_all_getattr getattr_ self env).1.1
      = set_results scanned all_results
    ∧ f scanned = f self.
Proof.
  intros Hkeep. unfold scan_all_getattr.
  pose proof (scan_fold_getattr_keeps f (rules self) [] self env Hkeep)
    as Hfold.
  destruct (fold_left (scan_rule_getattr getattr_) (rules self)
              ([], self, env)) as [[all_results scanned] env'].
  exists all_results, scanned. done.
Qed.

End ScanGetattr.

(** When the names resolve to checks, the scan with the lookup on the
    scanner is [scan_all]. *)
Lemma scan_all_getattr_checks {W : Type}
    (checks : string → option (Check W))
    (self : SecurityComplianceScanner) (env : Env W) :
  scan_all_getattr (getattr_checks checks) self env
  = scan_all checks self env.
Proof.
  unfold scan_all_getattr, scan_all, scan_loop.
  assert (Hfold : ∀ catalog acc s e,
    fold_left (scan_rule_getattr (getattr_checks checks)) catalog
              (acc, s, e)
    = ((fold_left (scan_rule checks) catalog (acc, e)).1, s,
       (fold_left (scan_rule checks) catalog (acc, e)).2)).
  { induction catalog as [|rule rest IH]; intros acc s e; [done|].
    cbn [fold_left].
    assert (Hstep :
      scan_rule_getattr (getattr_checks checks) (acc, s, e) rule
      = ((scan_rule checks (acc, e) rule).1, s,
         (scan_rule checks (acc, e) rule).2)).
    { unfold scan_rule_getattr, scan_rule, getattr_checks.
      destruct (checks (ComplianceRule.check_function rule))
        as [check_func|]; simpl; [|done].
      by destruct (check_func (world e))
        as [[check_results|partial msg] w]. }
    rewrite Hstep, IH.
    by destruct (scan_rule checks (acc, e) rule). }
  rewrite Hfold.
  by destruct (fold_left (scan_rule checks) (rules self) ([], env)).
Qed.

(** On a scanner of the class, the check names of the default catalog
    resolve to nothing or to a method that returns its results and leaves
    the scanner alone. *)
Lemma default_catalog_lookup (s : SecurityComplianceScanner)
    (rule : ComplianceRule.t) :
  In rule default_rules →
  scanner_getattr no_other_attribute s (ComplianceRule.check_function rule)
    = None
  ∨ ∃ method,
      scanner_getattr no_other_attribute s
        (ComplianceRule.check_function rule)
      = Some (method_attribute method).
Proof.
  intros Hin. simpl in Hin.
  repeat (destruct Hin as [<-|Hin]; [cbn; eauto|]). done.
Qed.

Lemma default_catalog_methods_keep_scanner (s : SecurityComplianceScanner)
    (rule : ComplianceRule.t)
    (call : SecurityComplianceScanner → Env Aws →
            Outcome * SecurityComplianceScanner * Env Aws)
    (e : Env Aws) :
  In rule default_rules →
  scanner_getattr no_other_attribute s (ComplianceRule.check_function rule)
    = Some (BoundMethod call) →
  (call s e).1.2 = s.
Proof.
  intros Hin Hget.
  destruct (default_catalog_lookup s rule Hin) as [Hnone|(method & Hm)];
    [congruence|].
  rewrite Hm in Hget. injection Hget as <-.
  by destruct (method e).
Qed.

(** C9, as amended. A full scan leaves the rule catalog as it was provided
    that no rule of the catalog names a method that assigns [self.rules]:
    if the bound methods that the check names of the catalog resolve to
    keep the catalog, the catalog after the scan is the catalog before it;
    and if they leave the scanner alone, as the checks of the class do, the
    scanner after the scan is the scanner before it with only the stored
    results replaced. *)
Theorem scan_all_getattr_preserves_rules {W : Type}
    (getattr_ : SecurityComplianceScanner → string → option (Attribute W))
    (self : SecurityComplianceScanner) (env : Env W) :
  (∀ s rule call e,
     In rule (rules self) →
     getattr_ s (ComplianceRule.check_function rule)
       = Some (BoundMethod call) →
     rules (call s e).1.2 = rules s) →
  rules (scan_all_getattr getattr_ self env).1.1 = rules self
  ∧ ((∀ s rule call e,
        In rule (rules self) →
        getattr_ s (ComplianceRule.check_function rule)
          = Some (BoundMethod call) →
        (call s e).1.2 = s) →
     (scan_all_getattr getattr_ self env).1.1
     = set_results self
         (results (scan_all_getattr getattr_ self env).1.1)).
Proof.
  intros Hrules. split.
  - destruct (scan_all_getattr_keeps getattr_ rules self env Hrules)
      as (all_results & scanned & -> & H).
    exact H.
  - intros Hself.
    destruct (scan_all_getattr_keeps getattr_ (λ s, s) self env Hself)
      as (all_results & scanned & -> & ->).
    done.
Qed.

(** A scan of a catalog whose one rule names [_load_default_rules]: the
    method is found and called, it assigns the default rules, the [None]
    it returns makes [extend] raise, and the scan ends with one ERROR
    result and with the catalog replaced. The rule that was scanned is no
    longer in the catalog, so its own result has a row of Unknown and the
    severity UNKNOWN. *)
Lemma scan_all_reload_replaces_rules :
  rules (scan_all_getattr (scanner_getattr no_other_attribute)
           reload_scanner (aws_env sample_aws)).1.1
  = default_rules
  ∧ rules (scan_all_getattr (scanner_getattr no_other_attribute)
             reload_scanner (aws_env sample_aws)).1.1
    ≠ rules reload_scanner
  ∧ results (scan_all_getattr (scanner_getattr no_other_attribute)
               reload_scanner (aws_env sample_aws)).1.1
    = [check_error_result reload_rule
         "'NoneType' object is not iterable"]
  ∧ Title (report_row
             (scan_all_getattr (scanner_getattr no_other_attribute)
                reload_scanner (aws_env sample_aws)).1.1
             (check_error_result reload_rule
                "'NoneType' object is not iterable"))
    = "Unknown"
  ∧ _get_rule_severity
      (scan_all_getattr (scanner_getattr no_other_attribute)
         reload_scanner (aws_env sample_aws)).1.1
      (ComplianceRule.id reload_rule)
    = "UNKNOWN".
Proof.
  repeat split; try reflexivity. intros H. discriminate H.
Qed.

Lemma scan_all_getattr_preserves_rules_witness :
  rules (scan_all_getattr (scanner_getattr no_other_attribute)
           fresh_scanner (aws_env sample_aws)).1.1
  = default_rules
  ∧ region (scan_all_getattr (scanner_getattr no_other_attribute)
              fresh_scanner (aws_env sample_aws)).1.1
    = "us-gov-west-1".
Proof.
  destruct (scan_all_getattr_preserves_rules
              (scanner_getattr no_other_attribute) fresh_scanner
              (aws_env sample_aws)) as [Hrules Hself].
  - intros s rule call e Hin Hget.
    by rewrite (default_catalog_methods_keep_scanner s rule call e Hin Hget).
  - split; [exact Hrules|]. rewrite Hself; [reflexivity|].
    intros s rule call e Hin Hget.
    exact (default_catalog_methods_keep_scanner s rule call e Hin Hget).
Defined.

(** In a catalog without repeated ids, and provided that no rule of the
    catalog names a method that assigns [self.rules], the ERROR results
    that the scan makes up for a rule, for a check that is not there or for
    one that raised, are joined with that very rule in the report after the
    scan and get its severity in the summary. *)
Theorem scan_errors_resolve_when_rules_kept {W : Type}
    (getattr_ : SecurityComplianceScanner → string → option (Attribute W))
    (self : SecurityComplianceScanner) (env : Env W)
    (rule : ComplianceRule.t) (e : string) :
  NoDup (map ComplianceRule.id (rules self)) →
  In rule (rules self) →
  (∀ s rule call e,
     In rule (rules self) →
     getattr_ s (ComplianceRule.check_function rule)
       = Some (BoundMethod call) →
     rules (call s e).1.2 = rules s) →
  let scanned := (scan_all_getattr getattr_ self env).1.1 in
  report_row scanned (not_implemented_result rule)
    = joined_row rule (not_implemented_result rule)
  ∧ report_row scanned (check_error_result rule e)
    = joined_row rule (check_error_result rule e)
  ∧ _get_rule_severity scanned (ComplianceRule.id rule)
    = ComplianceRule.severity rule.
Proof.
  intros Hnd Hin Hkeep scanned.
  assert (Hrules : rules scanned = rules self).
  { subst scanned.
    destruct (scan_all_getattr_keeps getattr_ rules self env Hkeep)
      as (all_results & scanned & -> & H).
    exact H. }
  assert (Hnext : next_rule scanned (ComplianceRule.id rule) = Some rule).
  { apply unique_id_found; by rewrite Hrules. }
  unfold report_row. simpl. rewrite Hnext.
  repeat split. by rewrite get_rule_severity_next_rule, Hnext.
Qed.

Lemma scan_fold_getattr_stored {W : Type}
    (getattr_ : SecurityComplianceScanner → string → option (Attribute W))
    (self : SecurityComplianceScanner)
    (old : list ComplianceResult.t)
    (catalog : list ComplianceRule.t)
    (acc : list ComplianceResult.t) (env : Env W) :
  (∀ rule, In rule catalog →
     getattr_ (set_results self old) (ComplianceRule.check_function rule)
     = getattr_ self (ComplianceRule.check_function rule)) →
  (∀ rule call e s,
     In rule catalog →
     getattr_ self (ComplianceRule.check_function rule)
       = Some (BoundMethod call) →
     call s e = ((call self e).1.1, s, (call self e).2)) →
  fold_left (scan_rule_getattr getattr_) catalog
            (acc, set_results self old, env)
  = ((fold_left (scan_rule_getattr getattr_) catalog (acc, self, env)).1.1,
     set_results self old,
     (fold_left (scan_rule_getattr getattr_) catalog (acc, self, env)).2)
  ∧ (fold_left (scan_rule_getattr getattr_) catalog (acc, self, env)).1.2
    = self.
Proof.
  revert acc env.
  induction catalog as [|rule rest IH]; intros acc env Hlookup Hcall;
    [done|].
  cbn [fold_left].
  assert (Hstep :
    scan_rule_getattr getattr_ (acc, set_results self old, env) rule
    = ((scan_rule_getattr getattr_ (acc, self, env) rule).1.1,
       set_results self old,
       (scan_rule_getattr getattr_ (acc, self, env) rule).2)
    ∧ (scan_rule_getattr getattr_ (acc, self, env) rule).1.2 = self).
  { unfold scan_rule_getattr.
    rewrite (Hlookup rule (or_introl eq_refl)).
    destruct (getattr_ self (ComplianceRule.check_function rule))
      as [[call|[|] type_name]|] eqn:Hget; [|done..].
    rewrite (Hcall rule call _ (set_results self old)
               (or_introl eq_refl) Hget).
    pose proof (Hcall rule call
                  (logger LogInfo
                     ("Running check: " +:+ ComplianceRule.id rule
                        +:+ " - " +:+ ComplianceRule.title rule) env)
                  self (or_introl eq_refl) Hget) as Hself.
    destruct (call self _) as [[[check_results|partial msg] s'] env'];
      simpl in *; by injection Hself as <-. }
  destruct Hstep as [Hstep Hself]. rewrite Hstep.
  destruct (scan_rule_getattr getattr_ (acc, self, env) rule)
    as [[acc' s'] env']. simpl in Hself. subst s'. simpl.
  apply IH.
  - intros rule0 Hin. apply Hlookup. by right.
  - intros rule0 call e s Hin. apply Hcall. by right.
Qed.

(** What an earlier scan stored reaches the next scan only through the
    lookup of attributes. If the check names of the catalog resolve the
    same way whatever is stored, to methods whose results do not depend on
    the scanner and that leave it alone, the scan returns the same scanner,
    environment and report whatever was stored before. A rule that names
    the attribute [results] is different: on a scanner of the class it gets
    the not-implemented result while nothing is stored, and the result of a
    list that cannot be called once something is. *)
Theorem stored_results_reach_the_scan_through_getattr {W : Type}
    (getattr_ : SecurityComplianceScanner → string → option (Attribute W))
    (self : SecurityComplianceScanner) (env : Env W)
    (old : list ComplianceResult.t) :
  ((∀ rule, In rule (rules self) →
      getattr_ (set_results self old) (ComplianceRule.check_function rule)
      = getattr_ self (ComplianceRule.check_function rule)) →
   (∀ rule call e s,
      In rule (rules self) →
      getattr_ self (ComplianceRule.check_function rule)
        = Some (BoundMethod call) →
      call s e = ((call self e).1.1, s, (call self e).2)) →
   scan_all_getattr getattr_ (set_results self old) env
   = scan_all_getattr getattr_ self env)
  ∧ (∀ others rule acc s (e : Env Aws),
       ComplianceRule.check_function rule = "results" →
       (results s = [] →
        (scan_rule_getattr (scanner_getattr others) (acc, s, e) rule).1
        = (acc ++ [not_implemented_result rule], s))
       ∧ (results s ≠ [] →
          (scan_rule_getattr (scanner_getattr others) (acc, s, e) rule).1
          = (acc ++ [check_error_result rule
                       "'list' object is not callable"], s))).
Proof.
  split.
  - intros Hlookup Hcall. unfold scan_all_getattr.
    change (rules (set_results self old)) with (rules self).
    destruct (scan_fold_getattr_stored getattr_ self old (rules self) []
                env Hlookup Hcall) as [-> Hself].
    destruct (fold_left (scan_rule_getattr getattr_) (rules self)
                ([], self, env)) as [[all_results s'] env'].
    simpl in *. by subst s'.
  - intros others rule acc s e Hname. unfold scan_rule_getattr.
    rewrite Hname. cbn [scanner_getattr String.eqb Ascii.eqb Bool.eqb].
    split; intros Hres.
    + by rewrite Hres.
    + by destruct (results s).
Qed.

Lemma scan_errors_resolve_when_rules_kept_witness :
  report_row (scan_all_getattr (scanner_getattr no_other_attribute)
                fresh_scanner (aws_env sample_aws)).1.1
             (not_implemented_result eks_logging_rule)
  = joined_row eks_logging_rule (not_implemented_result eks_logging_rule)
  ∧ _get_rule_severity
      (scan_all_getattr (scanner_getattr no_other_attribute)
         fresh_scanner (aws_env sample_aws)).1.1 "SEC-EKS-001"
    = "MEDIUM".
Proof.
  destruct (scan_errors_resolve_when_rules_kept
              (scanner_getattr no_other_attribute) fresh_scanner
              (aws_env sample_aws) eks_logging_rule "AccessDenied")
    as (Hrow & _ & Hsev).
  - exact default_rules_ids_NoDup.
  - simpl. tauto.
  - intros s rule call e Hin Hget.
    by rewrite (default_catalog_methods_keep_scanner s rule call e Hin Hget).
  - split; [exact Hrow|exact Hsev].
Defined.

Lemma stored_results_witness :
  scan_all_getattr (scanner_getattr no_other_attribute)
    (set_results fresh_scanner [stray_result]) (aws_env sample_aws)
  = scan_all_getattr (scanner_getattr no_other_attribute) fresh_scanner
      (aws_env sample_aws)
  ∧ (scan_rule_getattr (scanner_getattr no_other_attribute)
       ([], scanned_scanner, aws_env sample_aws) results_rule).1
    = ([check_error_result results_rule "'list' object is not callable"],
       scanned_scanner).
Proof.
  destruct (stored_results_reach_the_scan_through_getattr
              (scanner_getattr no_other_attribute) fresh_scanner
              (aws_env sample_aws) [stray_result]) as [Hsame Hname].
  split.
  - apply Hsame.
    + intros rule Hin.
      destruct (default_catalog_lookup fresh_scanner rule Hin)
        as [Hnone|(method & Hm)];
        destruct (default_catalog_lookup
                    (set_results fresh_scanner [stray_result]) rule Hin)
          as [Hnone'|(method' & Hm')]; simpl in Hin;
        repeat (destruct Hin as [<-|Hin]; [reflexivity|]); done.
    + intros rule call e s Hin Hget.
      destruct (default_catalog_lookup fresh_scanner rule Hin)
        as [Hnone|(method & Hm)]; [congruence|].
      rewrite Hm in Hget. injection Hget as <-.
      by destruct (method e).
  - apply (Hname no_other_attribute results_rule [] scanned_scanner
             (aws_env sample_aws)); [reflexivity|discriminate].
Defined.
